(** * Twitter ETL job: a shallow embedding of [p.py] and [twitter_etl.py]

    The repository holds two versions of the same extract-transform-load
    job.  [p.py] reads its credentials from Airflow Variables, checks the
    rate-limit quota first and fetches with a bounded number of retries and
    an exponential backoff; [twitter_etl.py] (the module the DAG imports)
    has hard-coded credentials, no quota check and waits a fixed time after
    every rate-limit error.  [transform_tweets] is the same text in both.

    Python [int] is [Z]; a Python [str] holding tweet text is a list of
    Unicode code points, so that [len] and [strip] mean what they mean in
    Python; names, paths and messages are plain [string]s. *)

From Stdlib Require Import ZArith NArith List String Ascii Bool Lia.
From Stdlib Require Import Sorting.Sorted Sorting.Permutation.
From Stdlib Require Import DecimalString DecimalPos DecimalZ.
Import ListNotations.

Local Open Scope Z_scope.

(** ** Python built-ins used by the job *)

Module Py.

(** A [str] is a sequence of code points. *)
Definition str := list N.

Definition of_ascii (s : string) : str :=
  map N_of_ascii (list_ascii_of_string s).

(** [str(n)] for an [int]. *)
Definition str_of_int (n : Z) : str :=
  of_ascii (NilZero.string_of_int (Z.to_int n)).

(** [len(s)], as an [int]. *)
Definition len {A} (l : list A) : Z := Z.of_nat (List.length l).

(** [l[:n]]: the first [n] items, or all but the last [-n] when [n] is
    negative. *)
Definition slice_to {A} (l : list A) (n : Z) : list A :=
  if 0 <=? n then firstn (Z.to_nat n) l
  else firstn (List.length l - Z.to_nat (- n)) l.

(** [s.replace(old, new)] for a one-character [old]. *)
Definition replace_char (old new : N) (s : str) : str :=
  map (fun c => if N.eqb c old then new else c) s.

(** The characters [str.strip()] removes: those for which
    [str.isspace()] holds. *)
Definition isspace (c : N) : bool :=
  ((9 <=? c) && (c <=? 13) || (28 <=? c) && (c <=? 32)
   || (c =? 133) || (c =? 160) || (c =? 5760)
   || (8192 <=? c) && (c <=? 8202)
   || (c =? 8232) || (c =? 8233) || (c =? 8239) || (c =? 8287)
   || (c =? 12288))%N.

Fixpoint lstrip (s : str) : str :=
  match s with
  | c :: s' => if isspace c then lstrip s' else s
  | [] => []
  end.

Definition rstrip (s : str) : str := rev (lstrip (rev s)).

Definition strip (s : str) : str := rstrip (lstrip s).

(** Truth value of an optional string ([None] and [''] are false). *)
Definition truthy (s : option string) : bool :=
  match s with
  | Some EmptyString | None => false
  | Some _ => true
  end.

End Py.

(** ** The part of pandas the transformer uses *)

Module Pandas.

(** A timestamp of a [datetime64[ns, UTC]] column: nanoseconds since the
    epoch.  [None] is [NaT]. *)
Definition Timestamp := Z.

Record Date := mkDate { year : Z; month : Z; day : Z }.

Definition ns_per_second : Z := 1000000000.
Definition ns_per_hour : Z := 3600 * ns_per_second.
Definition ns_per_day : Z := 24 * ns_per_hour.

(** Days since 1970-01-01 to a proleptic Gregorian date. *)
Definition civil_from_days (days : Z) : Date :=
  let z := days + 719468 in
  let era := z / 146097 in
  let doe := z - era * 146097 in
  let yoe := (doe - doe / 1460 + doe / 36524 - doe / 146096) / 365 in
  let y := yoe + era * 400 in
  let doy := doe - (365 * yoe + yoe / 4 - yoe / 100) in
  let mp := (5 * doy + 2) / 153 in
  let d := doy - (153 * mp + 2) / 5 + 1 in
  let m := if mp <? 10 then mp + 3 else mp - 9 in
  mkDate (if m <=? 2 then y + 1 else y) m d.

Definition days_from_civil (y m d : Z) : Z :=
  let y' := if m <=? 2 then y - 1 else y in
  let era := y' / 400 in
  let yoe := y' - era * 400 in
  let doy := (153 * (if 2 <? m then m - 3 else m + 9) + 2) / 5 + d - 1 in
  let doe := yoe * 365 + yoe / 4 - yoe / 100 + doy in
  era * 146097 + doe - 719468.

(** [.dt.date] and [.dt.hour] of a timestamp. *)
Definition date_of (t : Timestamp) : Date := civil_from_days (t / ns_per_day).
Definition hour_of (t : Timestamp) : Z := (t / ns_per_hour) mod 24.

(** The values a nanosecond timestamp can hold; the least [int64] is
    [NaT]. *)
Definition in_bounds (t : Z) : bool :=
  (- 2 ^ 63 <? t) && (t <? 2 ^ 63).

(** What a [created_at] cell holds before conversion. *)
Inductive RawTime :=
| RawDatetime (ns : Z)        (* a [datetime], as tweepy delivers it *)
| RawString (s : Py.str)
| RawNone.

(** [pd.to_datetime(..., errors='coerce')], taken cell by cell.  [parse]
    is the string parser of pandas; whatever it rejects, and whatever is
    out of the nanosecond range, becomes [NaT]. *)
Definition to_datetime (parse : Py.str -> option Z) (v : RawTime)
  : option Timestamp :=
  let coerce t := if in_bounds t then Some t else None in
  match v with
  | RawDatetime ns => coerce ns
  | RawString s => match parse s with Some t => coerce t | None => None end
  | RawNone => None
  end.

(** *** ISO 8601 strings of the form [YYYY-MM-DDTHH:MM:SSZ] *)

Definition digit (c : N) : option Z :=
  if ((48 <=? c) && (c <=? 57))%N then Some (Z.of_N c - 48) else None.

Fixpoint number (cs : list N) (acc : Z) : option Z :=
  match cs with
  | [] => Some acc
  | c :: cs' =>
      match digit c with
      | Some d => number cs' (10 * acc + d)
      | None => None
      end
  end.

Definition is_leap (y : Z) : bool :=
  ((y mod 4 =? 0) && negb (y mod 100 =? 0)) || (y mod 400 =? 0).

Definition days_in_month (y m : Z) : Z :=
  if m =? 2 then (if is_leap y then 29 else 28)
  else if (m =? 4) || (m =? 6) || (m =? 9) || (m =? 11) then 30
  else 31.

Definition parse_iso8601 (s : Py.str) : option Z :=
  match s with
  | [y1; y2; y3; y4; 45; m1; m2; 45; d1; d2; 84;
     h1; h2; 58; n1; n2; 58; s1; s2; 90]%N =>
      match number [y1; y2; y3; y4] 0, number [m1; m2] 0,
            number [d1; d2] 0, number [h1; h2] 0,
            number [n1; n2] 0, number [s1; s2] 0 with
      | Some y, Some m, Some d, Some h, Some mi, Some se =>
          if (1 <=? y) && (1 <=? m) && (m <=? 12) && (1 <=? d)
             && (d <=? days_in_month y m)
             && (h <? 24) && (mi <? 60) && (se <? 60)
          then Some (days_from_civil y m d * ns_per_day
                     + h * ns_per_hour
                     + (mi * 60 + se) * ns_per_second)
          else None
      | _, _, _, _, _, _ => None
      end
  | _ => None
  end.

(** *** [DataFrame.sort_values(by=..., ascending=False)]

    pandas sorts through [nargsort]: the rows whose key is missing are
    set aside, the others are reversed, sorted in ascending order,
    reversed again, and the rows with a missing key are appended in their
    original order ([na_position='last']).  The ascending sort is
    modelled by a stable insertion sort; numpy's default sort may order
    rows of equal keys differently, which no property below depends on. *)

Section SortValues.
Context {A : Type} (key : A -> option Timestamp).

Definition non_nans (rows : list A) : list (Z * A) :=
  flat_map (fun r => match key r with
                     | Some t => [(t, r)]
                     | None => []
                     end) rows.

Definition nans (rows : list A) : list A :=
  filter (fun r => match key r with
                   | Some _ => false
                   | None => true
                   end) rows.

Fixpoint insert (p : Z * A) (l : list (Z * A)) : list (Z * A) :=
  match l with
  | [] => [p]
  | q :: l' => if fst p <=? fst q then p :: l else q :: insert p l'
  end.

Definition argsort (l : list (Z * A)) : list (Z * A) :=
  fold_right insert [] l.

Definition sort_values_descending (rows : list A) : list A :=
  map snd (rev (argsort (rev (non_nans rows)))) ++ nans rows.
End SortValues.

End Pandas.

(** ** Records

    [Post] is one dictionary of the list [get_user_tweets] returns; [Row]
    is one row of the data frame [transform_tweets] returns. *)

(** A like or retweet count: an integer of at most 2^53 in absolute
    value.  Every such integer is a value of [int64] and of [float64], so
    that a column of counts holds them exactly whether pandas makes it an
    [int64] column (no value is missing) or a [float64] column (some value
    is missing), and [astype(int)] gives them back.  What the frame does
    with larger integers (rounding, wrapping, [OverflowError]) depends on
    the other values of the column and on the platform; they are not
    counts. *)
Module Count.
Record t := mk {
  value : Z;
  bounded : (Z.abs value <=? 2 ^ 53) = true
}.
End Count.

Module Post.
Record t := mk {
  id : Z;
  created_at : Pandas.RawTime;
  text : Py.str;
  likes : option Count.t;     (* [None]: the value is missing or null *)
  retweets : option Count.t
}.
End Post.

Module Row.
Record t := mk {
  id : Py.str;
  created_at : option Pandas.Timestamp;
  text : Py.str;
  likes : Z;
  retweets : Z;
  tweet_length : Z;
  created_date : option Pandas.Date;
  created_hour : option Z
}.
End Row.


(** ** The tweepy client, as the job sees it *)

Module Tweepy.

Record PublicMetrics := mkMetrics {
  like_count : Count.t;
  retweet_count : Count.t
}.

Record Tweet := mkTweet {
  id : Z;
  created_at : Z;             (* a [datetime], in nanoseconds *)
  text : Py.str;
  public_metrics : PublicMetrics
}.

(** What a call can raise.  [TooManyRequests] is a [TweepyException];
    the handlers test for it first. *)
Inductive Exn := TooManyRequests | TweepyException | OtherException.

Inductive Result (A : Type) :=
| Ok (a : A)
| Raise (e : Exn).
Arguments Ok {A} a.
Arguments Raise {A} e.

(** A page: [response.data] and [response.meta.get('next_token')]. *)
Record Response := mkResponse {
  data : option (list Tweet);
  next_token : option string
}.

Record RateLimit := mkRateLimit { remaining : Z; reset : Z }.

(** A client is a state and the three calls the job makes.  Each call
    may answer differently according to the state and its arguments.
    [get_user] answers with [user.data]: the user's id, or [None];
    [get_rate_limit_status] with the entry of the user-tweets endpoint,
    any failure to reach or to find it being an exception.

    The last field is not a call of the client.  It belongs to the
    platform the fetch runs on, which the state stands for as well:
    whether [time.sleep], called at this point of the run, accepts a
    length of time that is neither negative nor above what Python can
    count.  On Linux the length is added to the monotonic clock and the
    sum must fit a signed 64-bit number of nanoseconds. *)
Record Client := mkClient {
  state : Type;
  get_user : state -> string -> state * Result (option Z);
  get_users_tweets :
    state -> Z -> Z -> option string -> state * Result Response;
  get_rate_limit_status : state -> state * Result RateLimit;
  sleep_accepts : state -> Z -> bool
}.

End Tweepy.

(** ** Effects of a run, in the order they happen *)

Inductive Event :=
| EVariableGet (key : string)
| ERateLimitStatus
| EGetUser (username : string)
| EGetUsersTweets (id max_results : Z) (pagination_token : option string)
| ESleep (seconds : Z)
| ETransform (tweets : list Post.t)
| EToCsv (path : string) (df : list Row.t)
| EPathExists (path : string)
| EUploadFile (local_file bucket_name s3_file : string).

(** What ends a run of the job. *)
Inductive Exn :=
| KeyError (key : string)
| ValueError (msg : string)
| FileNotFoundError (local_file : string)
| ToCsvError
| UploadError.

Inductive Outcome :=
| Success
| Failure (e : Exn).

(** What lies outside the client: the Airflow Variables, the local file
    system and the object store. *)
Record Env := mkEnv {
  variable_get : string -> option string;   (* [None]: the key is not set *)
  to_csv_ok : bool;
  path_exists : bool;
  upload_file_ok : bool
}.

(** The longest time Python can count: 2^63 - 1 nanoseconds, in whole
    seconds. *)
Definition sleep_limit : Z := (2 ^ 63 - 1) / 10 ^ 9.

(** [time.sleep(secs)] raises [ValueError] on a negative length,
    [OverflowError] on a length above [sleep_limit], and [OSError] or
    [OverflowError] on a length the platform does not accept. *)
Definition sleep (accepted : bool) (secs : Z) : option Event :=
  if (secs <? 0) || (sleep_limit <? secs) || negb accepted then None
  else Some (ESleep secs).

Definition is_page_request (e : Event) : bool :=
  match e with EGetUsersTweets _ _ _ => true | _ => false end.

Definition is_fetch (e : Event) : bool :=
  match e with
  | EGetUser _ | EGetUsersTweets _ _ _ | ESleep _ => true
  | _ => false
  end.

Definition is_variable_get (e : Event) : bool :=
  match e with EVariableGet _ => true | _ => false end.

Definition is_sink (e : Event) : bool :=
  match e with EToCsv _ _ | EPathExists _ | EUploadFile _ _ _ => true | _ => false end.

Definition is_transform (e : Event) : bool :=
  match e with ETransform _ => true | _ => false end.

(** The transformer is called, or the local file or the object store is
    touched. *)
Definition touches_data (e : Event) : bool := is_transform e || is_sink e.

(** The waits of a run, in order. *)
Definition sleeps (evs : list Event) : list Z :=
  flat_map (fun e => match e with ESleep s => [s] | _ => [] end) evs.

(** The dictionary built for one tweet of a page. *)
Definition post_of_tweet (tweet : Tweepy.Tweet) : Post.t :=
  Post.mk (Tweepy.id tweet)
          (Pandas.RawDatetime (Tweepy.created_at tweet))
          (Tweepy.text tweet)
          (Some (Tweepy.like_count (Tweepy.public_metrics tweet)))
          (Some (Tweepy.retweet_count (Tweepy.public_metrics tweet))).

(** ** [p.py] *)

Module P.
Import Tweepy.

Section Fetch.
Context (api : Client).

(** The variables of the loop of [get_user_tweets]. *)
Record LoopState := mkLoop {
  tweets : list Post.t;
  next_token : option string;
  remaining_count : Z;
  retries : Z
}.

(** How the loop is left: past its end ([break] or a false
    condition), by [return []], or by an exception that the outer
    handler catches. *)
Inductive LoopExit :=
| Exited (st : LoopState)
| ReturnedEmpty
| Raised.

Definition prepend (evs : list Event)
    (r : option (state api * list Event * LoopExit))
  : option (state api * list Event * LoopExit) :=
  match r with
  | Some (c, evs', ex) => Some (c, evs ++ evs', ex)
  | None => None
  end.

(** The [while] loop; [None] when [fuel] iterations were not enough. *)
Fixpoint fetch_loop (fuel : nat) (uid count max_retries initial_wait : Z)
    (c : state api) (st : LoopState)
  : option (state api * list Event * LoopExit) :=
  match fuel with
  | O => None
  | S fuel' =>
      if (remaining_count st >? 0) && (retries st <? max_retries) then
        let batch_size := Z.min (remaining_count st) 100 in
        let request := EGetUsersTweets uid batch_size (next_token st) in
        let '(c', response) :=
          get_users_tweets api c uid batch_size (next_token st) in
        match response with
        | Ok response =>
            match data response with
            | None | Some [] => Some (c', [request], Exited st)
            | Some page =>
                let tweets' := tweets st ++ map post_of_tweet page in
                let remaining' := remaining_count st - Py.len page in
                let next' := Tweepy.next_token response in
                let st' := mkLoop tweets' next' remaining' (retries st) in
                if negb (Py.truthy next') || (Py.len tweets' >=? count)
                then Some (c', [request], Exited st')
                else prepend [request]
                       (fetch_loop fuel' uid count max_retries
                                   initial_wait c' st')
            end
        | Raise TooManyRequests =>
            let retries' := retries st + 1 in
            let wait_time := initial_wait * 2 ^ (retries' - 1) in
            match sleep (sleep_accepts api c' wait_time) wait_time with
            | Some slept =>
                prepend [request; slept]
                  (fetch_loop fuel' uid count max_retries initial_wait c'
                     (mkLoop (tweets st) (next_token st)
                             (remaining_count st) retries'))
            | None => Some (c', [request], Raised)
            end
        | Raise TweepyException => Some (c', [request], ReturnedEmpty)
        | Raise OtherException => Some (c', [request], Raised)
        end
      else Some (c, [], Exited st)
  end.

(** What [get_user_tweets] returns once the loop is left. *)
Definition after_loop (count max_retries : Z) (ex : LoopExit)
  : list Post.t :=
  match ex with
  | Exited st =>
      if retries st >=? max_retries then []
      else Py.slice_to (tweets st) count
  | ReturnedEmpty => []
  | Raised => []
  end.

Definition get_user_tweets_fuel (fuel : nat) (c : state api)
    (username : string) (count max_retries initial_wait : Z)
  : option (state api * list Event * list Post.t) :=
  let '(c1, user) := get_user api c username in
  match user with
  | Ok (Some uid) =>
      match fetch_loop fuel uid count max_retries initial_wait c1
                       (mkLoop [] None count 0) with
      | Some (c2, evs, ex) =>
          Some (c2, EGetUser username :: evs,
                after_loop count max_retries ex)
      | None => None
      end
  | Ok None => Some (c1, [EGetUser username], [])
  | Raise _ => Some (c1, [EGetUser username], [])
  end.

(** Iterations that always suffice: every iteration that does not
    leave the loop lowers [remaining_count] or raises [retries]. *)
Definition enough_fuel (count max_retries : Z) : nat :=
  S (Z.to_nat count + Z.to_nat max_retries).

(** [get_user_tweets], run with these iterations.  The second branch is
    never taken: the loop is over before they are used up. *)
Definition get_user_tweets (c : state api) (username : string)
    (count max_retries initial_wait : Z)
  : state api * list Event * list Post.t :=
  match get_user_tweets_fuel (enough_fuel count max_retries) c username
                             count max_retries initial_wait with
  | Some r => r
  | None => (c, [], [])
  end.

End Fetch.

(** One row of the frame [transform_tweets] builds, column by column.
    [fillna(0).astype(int)] gives 0 for a missing count and the count
    itself for one that is there: see [Count.t]. *)
Definition transform_row (parse : Py.str -> option Z) (tweet : Post.t)
  : Row.t :=
  let id := Py.str_of_int (Post.id tweet) in
  let created_at := Pandas.to_datetime parse (Post.created_at tweet) in
  let likes :=
    match Post.likes tweet with Some n => Count.value n | None => 0 end in
  let retweets :=
    match Post.retweets tweet with Some n => Count.value n | None => 0 end in
  let text := Py.strip (Py.replace_char 10 32 (Post.text tweet)) in
  Row.mk id created_at text likes retweets
         (Py.len text)
         (option_map Pandas.date_of created_at)
         (option_map Pandas.hour_of created_at).

(** [parse] is the string parser behind [pd.to_datetime].  An empty
    frame is returned as it is. *)
Definition transform_tweets (parse : Py.str -> option Z)
    (tweets : list Post.t) : list Row.t :=
  match tweets with
  | [] => []
  | _ =>
      Pandas.sort_values_descending Row.created_at
        (map (transform_row parse) tweets)
  end.

Section Job.
Context (api : Client) (parse : Py.str -> option Z) (env : Env).

Definition check_rate_limits (c : state api)
  : state api * list Event * Z :=
  let '(c', status) := get_rate_limit_status api c in
  match status with
  | Ok user_tweets_endpoint =>
      (c', [ERateLimitStatus], remaining user_tweets_endpoint)
  | Raise _ => (c', [ERateLimitStatus], 0)
  end.

Definition upload_to_s3 (local_file bucket_name s3_file : string)
  : list Event * Outcome :=
  if negb (path_exists env) then
    ([EPathExists local_file], Failure (FileNotFoundError local_file))
  else if upload_file_ok env then
    ([EPathExists local_file;
      EUploadFile local_file bucket_name s3_file], Success)
  else
    ([EPathExists local_file;
      EUploadFile local_file bucket_name s3_file], Failure UploadError).

(** The five Airflow Variables, read in this order; the first one that
    is not set ends the run. *)
Definition credentials : list string :=
  ["twitter_bearer_token"; "twitter_api_key"; "twitter_api_key_secret";
   "twitter_access_token"; "twitter_access_token_secret"]%string.

Fixpoint load_variables (keys : list string) : list Event * Outcome :=
  match keys with
  | [] => ([], Success)
  | key :: keys' =>
      match variable_get env key with
      | Some _ =>
          let '(evs, r) := load_variables keys' in
          (EVariableGet key :: evs, r)
      | None => ([EVariableGet key], Failure (KeyError key))
      end
  end.

(** The steps of the job once the tweets are fetched. *)
Definition store (tweets : list Post.t) : list Event * Outcome :=
  match tweets with
  | _ :: _ =>
      let df := transform_tweets parse tweets in
      let local_path := "/tmp/tweets.csv"%string in
      if to_csv_ok env then
        let '(evs, r) :=
          upload_to_s3 local_path "airfloe-kini"
                       "twitter_data/tweets.csv" in
        (ETransform tweets :: EToCsv local_path df :: evs, r)
      else
        ([ETransform tweets; EToCsv local_path df], Failure ToCsvError)
  | [] => ([], Failure (ValueError "No tweets fetched, failing task."))
  end.

(** [c0] is the client [tweepy.Client(...)] builds. *)
Definition run_twitter_etl (c0 : state api) : list Event * Outcome :=
  match load_variables credentials with
  | (evs0, Failure e) => (evs0, Failure e)
  | (evs0, Success) =>
      let '(c1, evs1, remaining_requests) := check_rate_limits c0 in
      if remaining_requests <? 1 then
        (evs0 ++ evs1, Failure (ValueError "Rate limit exhausted."))
      else
        let '(_, evs2, tweets) :=
          get_user_tweets api c1 "NASA" 5 3 60 in
        let '(evs3, r) := store tweets in
        (evs0 ++ evs1 ++ evs2 ++ evs3, r)
  end.

End Job.

End P.

(** ** [twitter_etl.py] *)

Module TwitterEtl.
Import Tweepy.

Section Fetch.
Context (api : Client).

Record LoopState := mkLoop {
  tweets : list Post.t;
  next_token : option string;
  remaining_count : Z
}.

(** The loop is left past its end or by an exception that the outer
    handler catches. *)
Inductive LoopExit :=
| Exited (st : LoopState)
| Raised.

Definition prepend (evs : list Event)
    (r : option (state api * list Event * LoopExit))
  : option (state api * list Event * LoopExit) :=
  match r with
  | Some (c, evs', ex) => Some (c, evs ++ evs', ex)
  | None => None
  end.

(** The [while] loop; [None] when [fuel] iterations were not enough.
    [max_retries] is a parameter of [get_user_tweets] that the loop
    never reads. *)
Fixpoint fetch_loop (fuel : nat) (uid count wait_time : Z)
    (c : state api) (st : LoopState)
  : option (state api * list Event * LoopExit) :=
  match fuel with
  | O => None
  | S fuel' =>
      if remaining_count st >? 0 then
        let batch_size := Z.min (remaining_count st) 100 in
        let request := EGetUsersTweets uid batch_size (next_token st) in
        let '(c', response) :=
          get_users_tweets api c uid batch_size (next_token st) in
        match response with
        | Ok response =>
            match data response with
            | None | Some [] => Some (c', [request], Exited st)
            | Some page =>
                let tweets' := tweets st ++ map post_of_tweet page in
                let remaining' := remaining_count st - Py.len page in
                let next' := Tweepy.next_token response in
                let st' := mkLoop tweets' next' remaining' in
                if negb (Py.truthy next') || (Py.len tweets' >=? count)
                then Some (c', [request], Exited st')
                else prepend [request]
                       (fetch_loop fuel' uid count wait_time c' st')
            end
        | Raise TooManyRequests =>
            match sleep (sleep_accepts api c' wait_time) wait_time with
            | Some slept =>
                prepend [request; slept]
                  (fetch_loop fuel' uid count wait_time c' st)
            | None => Some (c', [request], Raised)
            end
        | Raise _ => Some (c', [request], Raised)
        end
      else Some (c, [], Exited st)
  end.

Definition after_loop (count : Z) (ex : LoopExit) : list Post.t :=
  match ex with
  | Exited st => Py.slice_to (tweets st) count
  | Raised => []
  end.

Definition get_user_tweets (fuel : nat) (c : state api)
    (username : string) (count max_retries wait_time : Z)
  : option (state api * list Event * list Post.t) :=
  let '(c1, user) := get_user api c username in
  match user with
  | Ok (Some uid) =>
      match fetch_loop fuel uid count wait_time c1
                       (mkLoop [] None count) with
      | Some (c2, evs, ex) =>
          Some (c2, EGetUser username :: evs, after_loop count ex)
      | None => None
      end
  | Ok None => Some (c1, [EGetUser username], [])
  | Raise _ => Some (c1, [EGetUser username], [])
  end.

End Fetch.

Definition transform_row (parse : Py.str -> option Z) (tweet : Post.t)
  : Row.t :=
  let id := Py.str_of_int (Post.id tweet) in
  let created_at := Pandas.to_datetime parse (Post.created_at tweet) in
  let likes :=
    match Post.likes tweet with Some n => Count.value n | None => 0 end in
  let retweets :=
    match Post.retweets tweet with Some n => Count.value n | None => 0 end in
  let text := Py.strip (Py.replace_char 10 32 (Post.text tweet)) in
  Row.mk id created_at text likes retweets
         (Py.len text)
         (option_map Pandas.date_of created_at)
         (option_map Pandas.hour_of created_at).

Definition transform_tweets (parse : Py.str -> option Z)
    (tweets : list Post.t) : list Row.t :=
  match tweets with
  | [] => []
  | _ =>
      Pandas.sort_values_descending Row.created_at
        (map (transform_row parse) tweets)
  end.

Section Job.
Context (api : Client) (parse : Py.str -> option Z) (env : Env).

Definition upload_to_s3 (local_file bucket_name s3_file : string)
  : list Event * Outcome :=
  if negb (path_exists env) then
    ([EPathExists local_file], Failure (FileNotFoundError local_file))
  else if upload_file_ok env then
    ([EPathExists local_file;
      EUploadFile local_file bucket_name s3_file], Success)
  else
    ([EPathExists local_file;
      EUploadFile local_file bucket_name s3_file], Failure UploadError).

Definition store (tweets : list Post.t) : list Event * Outcome :=
  match tweets with
  | _ :: _ =>
      let df := transform_tweets parse tweets in
      let local_path := "/tmp/tweets.csv"%string in
      if to_csv_ok env then
        let '(evs, r) :=
          upload_to_s3 local_path "airfloe-kini"
                       "twitter_data/tweets.csv" in
        (ETransform tweets :: EToCsv local_path df :: evs, r)
      else
        ([ETransform tweets; EToCsv local_path df], Failure ToCsvError)
  | [] => ([], Failure (ValueError "No tweets fetched, failing task."))
  end.

(** The credentials are constants of the file; [c0] is the client
    built from them.  [None] when the fetch does not return within
    [fuel] iterations. *)
Definition run_twitter_etl (fuel : nat) (c0 : state api)
  : option (list Event * Outcome) :=
  match get_user_tweets api fuel c0 "NASA" 5 3 900 with
  | Some (_, evs1, tweets) =>
      let '(evs2, r) := store tweets in
      Some (evs1 ++ evs2, r)
  | None => None
  end.

End Job.

End TwitterEtl.

(** ** Clients and inputs used to exercise the definitions *)

Module Examples.
Import Tweepy.

(** Every page request is answered with a rate-limit error. *)
Definition always_limited : Client :=
  mkClient unit
    (fun s _ => (s, Ok (Some 11)))
    (fun s _ _ _ => (s, Raise TooManyRequests))
    (fun s => (s, Ok (mkRateLimit 900 0)))
    (fun _ _ => true).

(** The state is the list of the answers still to give to page requests;
    once it is used up every request is rate limited.  The quota query
    fails. *)
Definition scripted : Client :=
  mkClient (list (Result Response))
    (fun s _ => (s, Ok (Some 11)))
    (fun s _ _ _ =>
       match s with
       | r :: s' => (s', r)
       | [] => ([], Raise TooManyRequests)
       end)
    (fun s => (s, Raise OtherException))
    (fun _ _ => true).

Definition count_1 : Count.t := Count.mk 1 eq_refl.
Definition count_2 : Count.t := Count.mk 2 eq_refl.
Definition count_5 : Count.t := Count.mk 5 eq_refl.

Definition tweet (n : Z) : Tweet :=
  mkTweet n (1704103200000000000 + n) (Py.of_ascii "hello")
          (mkMetrics count_1 count_2).

Definition page (ids : list Z) (next : option string) : Result Response :=
  Ok (mkResponse (Some (map tweet ids)) next).

(** The post of the scenario of the transformer. *)
Definition scenario_post : Post.t :=
  Post.mk 1 (Pandas.RawString (Py.of_ascii "2024-01-01T10:00:00Z"))
          [97; 10; 98]%N None (Some count_5).

(** Posts whose timestamps convert, not in order. *)
Definition dated_posts : list Post.t :=
  [Post.mk 7 (Pandas.RawString (Py.of_ascii "2023-12-31T23:59:59Z"))
           (Py.of_ascii "old") (Some count_1) None;
   scenario_post;
   Post.mk 9 (Pandas.RawDatetime 1704100000000000000)
           (Py.of_ascii "mid") None None].

(** Posts of which two have no timestamp that converts. *)
Definition mixed_posts : list Post.t :=
  [Post.mk 4 (Pandas.RawString (Py.of_ascii "yesterday"))
           (Py.of_ascii "bad") (Some count_1) (Some count_1);
   Post.mk 7 (Pandas.RawString (Py.of_ascii "2023-12-31T23:59:59Z"))
           (Py.of_ascii "old") (Some count_1) None;
   Post.mk 5 Pandas.RawNone (Py.of_ascii "none") None None;
   scenario_post].

(** One page of two tweets with more to come, then rate-limit errors
    only. *)
Definition page_then_limited : list (Result Response) :=
  [page [1; 2] (Some "t1"%string)].

(** The loop variables of [p.py] once three retries have followed that
    page. *)
Definition exhausted : P.LoopState :=
  P.mkLoop (map post_of_tweet (map tweet [1; 2])) (Some "t1"%string) 3 3.

(** Two rate-limit errors, then the only page. *)
Definition limited_twice : list (Result Response) :=
  [Raise TooManyRequests; Raise TooManyRequests; page [1; 2] None].

(** Every page request is answered with the same page of three tweets
    and no next token. *)
Definition one_page : Client :=
  mkClient unit
    (fun s _ => (s, Ok (Some 11)))
    (fun s _ _ _ => (s, page [1; 2; 3] None))
    (fun s => (s, Ok (mkRateLimit 900 0)))
    (fun _ _ => true).

(** The third of the five Variables is not set. *)
Definition secret_missing : Env :=
  mkEnv (fun key => if String.eqb key "twitter_api_key_secret"
                    then None else Some "secret"%string)
        true true true.

Definition all_set : Env :=
  mkEnv (fun _ => Some "secret"%string) true true true.

End Examples.

(** ** Vocabulary of the properties *)

(** Orders on the pairs of a key and a row that [argsort] handles. *)
Definition ascending {A} (p q : Z * A) : Prop := fst p <= fst q.
Definition descending {A} (p q : Z * A) : Prop := fst q <= fst p.

(** The rows with a key, as [sort_values] orders them. *)
Definition sorted_part {A} (key : A -> option Z) (rows : list A)
  : list (Z * A) :=
  rev (Pandas.argsort (rev (Pandas.non_nans key rows))).

(** Of two rows, the first has a key and it is not below the key of the
    second. *)
Definition not_older {A} (key : A -> option Z) (r1 r2 : A) : Prop :=
  match key r1, key r2 with
  | Some t1, Some t2 => t2 <= t1
  | _, _ => False
  end.

(** The output of the transformer has the newest row first. *)
Definition newest_first (df : list Row.t) : Prop :=
  StronglySorted (not_older Row.created_at) df.

(** A post whose [created_at] converts to a timestamp. *)
Definition valid_timestamp (parse : Py.str -> option Z) (tweet : Post.t)
  : Prop :=
  Pandas.to_datetime parse (Post.created_at tweet) <> None.

(** The waits of [n] consecutive retries, the first of them being retry
    number [r + 1]. *)
Fixpoint backoff (initial_wait r : Z) (n : nat) : list Z :=
  match n with
  | O => []
  | S n' => initial_wait * 2 ^ r :: backoff initial_wait (r + 1) n'
  end.

(** The wait before retry number [k], for [k] from 1. *)
Definition wait_before_retry (evs : list Event) (k : nat) : option Z :=
  match k with
  | O => None
  | S k' => nth_error (sleeps evs) k'
  end.

(** Every iteration of the loop of [p.py] that stays in the loop lowers
    this number. *)
Definition budget (max_retries : Z) (st : P.LoopState) : nat :=
  Z.to_nat (P.remaining_count st) + Z.to_nat (max_retries - P.retries st).

(** A fetch of [p.py] is either over after the user lookup, or it is a run
    of the loop from the initial state. *)
Inductive fetch_run (api : Tweepy.Client) (c : Tweepy.state api)
    (username : string) (count max_retries initial_wait : Z)
  : Tweepy.state api * list Event * list Post.t -> Prop :=
| fetch_no_user c1 r :
    Tweepy.get_user api c username = (c1, r) ->
    (forall uid, r <> Tweepy.Ok (Some uid)) ->
    fetch_run api c username count max_retries initial_wait
              (c1, [EGetUser username], [])
| fetch_looped c1 uid fuel c2 evs ex :
    Tweepy.get_user api c username = (c1, Tweepy.Ok (Some uid)) ->
    P.fetch_loop api fuel uid count max_retries initial_wait c1
                 (P.mkLoop [] None count 0) = Some (c2, evs, ex) ->
    fetch_run api c username count max_retries initial_wait
              (c2, EGetUser username :: evs,
               P.after_loop count max_retries ex).

(** A client that answers every page request with a rate-limit error. *)
Definition persistently_limited (api : Tweepy.Client) : Prop :=
  forall c uid max_results token,
    snd (Tweepy.get_users_tweets api c uid max_results token)
    = Tweepy.Raise Tweepy.TooManyRequests.

(** No event of a run is of the kind [p]. *)
Definition none_of (p : Event -> bool) (evs : list Event) : Prop :=
  filter p evs = [].

(** The errors of the job that the specification names [NoDataError] and
    [RateLimitExhausted]. *)
Definition NoDataError : Exn := ValueError "No tweets fetched, failing task.".
Definition RateLimitExhausted : Exn := ValueError "Rate limit exhausted.".

(** [time.sleep] accepts, or refuses, a length of time at every point of
    a run. *)
Definition sleep_succeeds (api : Tweepy.Client) (secs : Z) : Prop :=
  forall c, sleep (Tweepy.sleep_accepts api c secs) secs = Some (ESleep secs).


(** A client that never answers a page request with a rate-limit error. *)
Definition never_limited (api : Tweepy.Client) : Prop :=
  forall c uid max_results token,
    snd (Tweepy.get_users_tweets api c uid max_results token)
    <> Tweepy.Raise Tweepy.TooManyRequests.

(** The page requests of a run, in order. *)
Definition page_requests (evs : list Event) : list Event :=
  filter is_page_request evs.

(** A page request for the user [uid] that asks for at least one and at
    most 100 tweets, and for no more than [count]. *)
Definition well_sized (uid count : Z) (e : Event) : Prop :=
  match e with
  | EGetUsersTweets id max_results _ =>
      id = uid /\ 1 <= max_results <= 100 /\ max_results <= count
  | _ => True
  end.

(** Every event that a wait follows is a page request, and the event
    after the wait, if there is one, is that request again. *)
Fixpoint same_after_wait (evs : list Event) : Prop :=
  match evs with
  | [] => True
  | r :: evs' =>
      match evs' with
      | ESleep _ :: rest =>
          is_page_request r = true
          /\ match rest with
             | r' :: _ => r' = r
             | [] => True
             end
      | _ => True
      end
      /\ same_after_wait evs'
  end.

(** The sum of a list of lengths of time. *)
Definition total (l : list Z) : Z := fold_right Z.add 0 l.

(** A row without a timestamp. *)
Definition undated (row : Row.t) : bool :=
  match Row.created_at row with
  | Some _ => false
  | None => true
  end.

(** The first of the keys that is not set. *)
Definition first_missing (env : Env) (keys : list string) : option string :=
  find (fun key => match variable_get env key with
                   | Some _ => false
                   | None => true
                   end) keys.

Definition is_upload (e : Event) : bool :=
  match e with EUploadFile _ _ _ => true | _ => false end.

(** * Properties *)

(** ** Sorting *)

Section SortFacts.
Context {A : Type} (key : A -> option Z).

Lemma insert_perm (p : Z * A) l : Permutation (p :: l) (Pandas.insert p l).
Proof.
  induction l as [|q l IH]; simpl; [reflexivity|].
  destruct (fst p <=? fst q); [reflexivity|].
  rewrite perm_swap. now constructor.
Qed.

Lemma argsort_perm (l : list (Z * A)) : Permutation l (Pandas.argsort l).
Proof.
  induction l as [|p l IH]; simpl; [constructor|].
  rewrite <- insert_perm. now constructor.
Qed.

Lemma insert_sorted (p : Z * A) l :
  StronglySorted ascending l -> StronglySorted ascending (Pandas.insert p l).
Proof.
  induction 1 as [|q l Hs IH Hq]; simpl.
  - repeat constructor.
  - destruct (fst p <=? fst q) eqn:E.
    + apply Z.leb_le in E. constructor; [now constructor|].
      constructor; [exact E|].
      eapply Forall_impl; [|exact Hq].
      unfold ascending; intros; lia.
    + apply Z.leb_gt in E. constructor; [exact IH|].
      eapply Permutation_Forall; [apply insert_perm|].
      constructor; [unfold ascending; lia | exact Hq].
Qed.

Lemma argsort_sorted (l : list (Z * A)) :
  StronglySorted ascending (Pandas.argsort l).
Proof.
  induction l; simpl; [constructor | now apply insert_sorted].
Qed.

Lemma sorted_app (R : Z * A -> Z * A -> Prop) l1 l2 :
  StronglySorted R l1 -> StronglySorted R l2 ->
  (forall x y, In x l1 -> In y l2 -> R x y) ->
  StronglySorted R (l1 ++ l2).
Proof.
  induction 1 as [|x l1 Hs IH Hx]; simpl; intros H2 Hc; [exact H2|].
  constructor.
  - apply IH; [exact H2 | intros; apply Hc; simpl; auto].
  - apply Forall_app; split; [exact Hx|].
    apply Forall_forall; intros y Hy. apply Hc; simpl; auto.
Qed.

Lemma sorted_rev (l : list (Z * A)) :
  StronglySorted ascending l -> StronglySorted descending (rev l).
Proof.
  induction 1 as [|x l Hs IH Hx]; simpl; [constructor|].
  apply sorted_app; [exact IH | repeat constructor|].
  intros y z Hy [<-|[]]. apply in_rev in Hy.
  rewrite Forall_forall in Hx. exact (Hx y Hy).
Qed.

Lemma non_nans_key rows :
  Forall (fun p => key (snd p) = Some (fst p)) (Pandas.non_nans key rows).
Proof.
  induction rows as [|r rows IH]; simpl; [constructor|].
  unfold Pandas.non_nans in *; simpl.
  destruct (key r) eqn:E; simpl; [constructor; [exact E|]|]; exact IH.
Qed.

Lemma non_nans_nans_perm rows :
  Permutation rows (map snd (Pandas.non_nans key rows) ++ Pandas.nans key rows).
Proof.
  induction rows as [|r rows IH]; simpl; [constructor|].
  unfold Pandas.non_nans, Pandas.nans in *; simpl.
  destruct (key r); simpl.
  - now constructor.
  - now apply Permutation_cons_app.
Qed.

Lemma nans_all_valid rows :
  Forall (fun r => key r <> None) rows -> Pandas.nans key rows = [].
Proof.
  induction 1 as [|r rows Hr _ IH]; simpl; [reflexivity|].
  destruct (key r); [exact IH | congruence].
Qed.

Lemma sorted_part_descending rows :
  StronglySorted descending (sorted_part key rows).
Proof. apply sorted_rev, argsort_sorted. Qed.

Lemma sorted_part_perm rows :
  Permutation (Pandas.non_nans key rows) (sorted_part key rows).
Proof.
  unfold sorted_part.
  rewrite <- Permutation_rev, <- argsort_perm, <- Permutation_rev.
  reflexivity.
Qed.

Lemma sorted_part_key rows :
  Forall (fun p => key (snd p) = Some (fst p)) (sorted_part key rows).
Proof.
  eapply Permutation_Forall; [apply sorted_part_perm | apply non_nans_key].
Qed.

Lemma sort_values_perm rows :
  Permutation rows (Pandas.sort_values_descending key rows).
Proof.
  unfold Pandas.sort_values_descending.
  rewrite (non_nans_nans_perm rows) at 1.
  apply Permutation_app_tail, Permutation_map, sorted_part_perm.
Qed.

Lemma sorted_part_not_older rows :
  StronglySorted (not_older key) (map snd (sorted_part key rows)).
Proof.
  pose proof (sorted_part_descending rows) as Hs.
  pose proof (sorted_part_key rows) as Hk.
  induction Hs as [|p l Hs IH Hp]; simpl; [constructor|].
  inversion Hk as [|? ? Hkp Hkl]; subst.
  constructor; [now apply IH|].
  apply Forall_map, Forall_forall; intros q Hq.
  rewrite Forall_forall in Hp, Hkl.
  unfold not_older. rewrite Hkp, (Hkl q Hq). exact (Hp q Hq).
Qed.

End SortFacts.

(** ** The loop of [p.py] *)

Lemma sleep_some accepted secs e :
  sleep accepted secs = Some e ->
  e = ESleep secs /\ 0 <= secs <= sleep_limit /\ accepted = true.
Proof.
  unfold sleep.
  destruct (secs <? 0) eqn:E1; [discriminate|].
  destruct (sleep_limit <? secs) eqn:E2; [discriminate|].
  destruct accepted; [|discriminate]. simpl.
  intros H. injection H as <-.
  apply Z.ltb_ge in E1, E2. auto.
Qed.

Lemma backoff_nth initial_wait : forall n r k w,
  nth_error (backoff initial_wait r n) k = Some w ->
  w = initial_wait * 2 ^ (r + Z.of_nat k) /\ (k < n)%nat.
Proof.
  induction n as [|n IH]; intros r k w H; destruct k; simpl in H;
    try discriminate.
  - injection H as <-. rewrite Z.add_0_r. split; [reflexivity | lia].
  - apply IH in H. destruct H as [-> Hk]. split; [f_equal; f_equal|]; lia.
Qed.

Lemma backoff_length initial_wait : forall n r,
  List.length (backoff initial_wait r n) = n.
Proof. induction n; simpl; intros; [|rewrite IHn]; reflexivity. Qed.

Section LoopFacts.
Context (api : Tweepy.Client) (uid count max_retries initial_wait : Z).

Local Abbreviation loop fuel := (P.fetch_loop api fuel uid count max_retries initial_wait).

Ltac step c st :=
  destruct (Tweepy.get_users_tweets api c uid
              (Z.min (P.remaining_count st) 100) (P.next_token st))
    as [c1 [[[[|tw page]|] next]|[| |]]]; simpl.

Lemma fetch_loop_S : forall fuel c st r,
  loop fuel c st = Some r -> loop (S fuel) c st = Some r.
Proof.
  induction fuel as [|fuel IH]; intros c st r H; [discriminate|].
  simpl in H. remember (S fuel) as n eqn:En. simpl.
  destruct ((P.remaining_count st >? 0) && (P.retries st <? max_retries));
    [|exact H].
  step c st; simpl in H; try exact H.
  - destruct (negb _ || _); [exact H|].
    destruct (loop fuel c1 _) as [[[c2 evs] ex]|] eqn:E; [|discriminate].
    subst n. now rewrite (IH _ _ _ E).
  - destruct (sleep _ _); [|exact H].
    destruct (loop fuel c1 _) as [[[c2 evs] ex]|] eqn:E; [|discriminate].
    subst n. now rewrite (IH _ _ _ E).
Qed.

Lemma fetch_loop_more_fuel fuel fuel' c st r :
  (fuel <= fuel')%nat ->
  loop fuel c st = Some r -> loop fuel' c st = Some r.
Proof.
  induction 1 as [|m _ IH]; intros H; [exact H|].
  apply fetch_loop_S, IH, H.
Qed.

Lemma fetch_loop_terminates : forall fuel c st,
  (budget max_retries st < fuel)%nat -> exists r, loop fuel c st = Some r.
Proof.
  unfold budget.
  induction fuel as [|fuel IH]; intros c st Hb; [lia|]. simpl.
  destruct ((P.remaining_count st >? 0) && (P.retries st <? max_retries))
    eqn:Hc; [|eauto].
  apply andb_true_iff in Hc. destruct Hc as [Hr Ht].
  apply Z.gtb_lt in Hr. apply Z.ltb_lt in Ht.
  step c st; eauto.
  - destruct (negb _ || _); [eauto|].
    edestruct (IH c1) as [[[c2 evs] ex] ->]; [|simpl; eauto].
    simpl. unfold Py.len. simpl List.length. lia.
  - destruct (sleep _ _); [|eauto].
    edestruct (IH c1) as [[[c2 evs] ex] ->]; [|simpl; eauto].
    simpl. lia.
Qed.

(** The waits of a run of the loop follow the retry counter. *)
Lemma fetch_loop_sleeps : forall fuel c st c' evs ex,
  loop fuel c st = Some (c', evs, ex) ->
  exists n : nat,
    sleeps evs = backoff initial_wait (P.retries st) n /\
    (n = O \/ P.retries st + Z.of_nat n <= max_retries) /\
    match ex with
    | P.Exited st' => P.retries st' = P.retries st + Z.of_nat n
    | _ => True
    end.
Proof.
  induction fuel as [|fuel IH]; intros c st c' evs ex H; [discriminate|].
  simpl in H.
  destruct ((P.remaining_count st >? 0) && (P.retries st <? max_retries))
    eqn:Hc.
  2:{ injection H as <- <- <-. exists O. simpl. split; [|split]; auto; lia. }
  apply andb_true_iff in Hc. destruct Hc as [_ Ht]. apply Z.ltb_lt in Ht.
  revert H. step c st; intros H.
  1,3: injection H as <- <- <-; exists O; simpl; split; [|split]; auto; lia.
  3,4: injection H as <- <- <-; exists O; simpl; split; [|split]; auto; lia.
  - destruct (negb _ || _).
    + injection H as <- <- <-. exists O. simpl. split; [|split]; auto; lia.
    + destruct (loop fuel c1 _) as [[[c2 evs2] ex2]|] eqn:E; [|discriminate].
      simpl in H. injection H as <- <- <-.
      apply IH in E. simpl in E. exact E.
  - destruct (sleep _ _) as [slept|] eqn:Esl.
    2:{ injection H as <- <- <-. exists O. simpl. split; [|split]; auto; lia. }
    + apply sleep_some in Esl. destruct Esl as [-> _].
      destruct (loop fuel c1 _) as [[[c2 evs2] ex2]|] eqn:E; [|discriminate].
      simpl in H. injection H as <- <- <-.
      apply IH in E. simpl in E. destruct E as (n & Hs & Hn & Hex).
      exists (S n). simpl. rewrite Hs.
      replace (P.retries st + 1 - 1) with (P.retries st) by lia.
      split; [reflexivity|]. split.
      * right. destruct Hn as [->|Hn]; lia.
      * destruct ex2; auto. rewrite Hex. lia.
Qed.

(** No page is requested and nothing is waited for when the loop is
    entered with nothing left to fetch. *)
Lemma fetch_loop_nothing_remaining fuel c st :
  P.remaining_count st <= 0 ->
  loop (S fuel) c st = Some (c, [], P.Exited st).
Proof.
  intros H. simpl.
  destruct (P.remaining_count st >? 0) eqn:E; [|reflexivity].
  apply Z.gtb_lt in E. lia.
Qed.

End LoopFacts.

(** ** [get_user_tweets] of [p.py] *)

Section FetchFacts.
Context (api : Tweepy.Client).

Lemma get_user_tweets_fuel_run fuel c username count max_retries initial_wait r :
  P.get_user_tweets_fuel api fuel c username count max_retries initial_wait
    = Some r ->
  fetch_run api c username count max_retries initial_wait r.
Proof.
  unfold P.get_user_tweets_fuel.
  destruct (Tweepy.get_user api c username) as [c1 [[uid|]|e]] eqn:Eu.
  - destruct (P.fetch_loop _ _ _ _ _ _ _ _) as [[[c2 evs] ex]|] eqn:El;
      [|discriminate].
    intros H. injection H as <-. eapply fetch_looped; eauto.
  - intros H. injection H as <-. eapply fetch_no_user; eauto. discriminate.
  - intros H. injection H as <-. eapply fetch_no_user; eauto. discriminate.
Qed.

Lemma get_user_tweets_fuel_more fuel fuel' c username count max_retries
    initial_wait r :
  (fuel <= fuel')%nat ->
  P.get_user_tweets_fuel api fuel c username count max_retries initial_wait
    = Some r ->
  P.get_user_tweets_fuel api fuel' c username count max_retries initial_wait
    = Some r.
Proof.
  unfold P.get_user_tweets_fuel. intros Hle.
  destruct (Tweepy.get_user api c username) as [c1 [[uid|]|e]]; auto.
  destruct (P.fetch_loop api fuel _ _ _ _ _ _) as [[[c2 evs] ex]|] eqn:El;
    [|discriminate].
  now rewrite (fetch_loop_more_fuel _ _ _ _ _ _ _ _ _ _ Hle El).
Qed.

Lemma get_user_tweets_fuel_enough c username count max_retries initial_wait :
  P.get_user_tweets_fuel api (P.enough_fuel count max_retries) c username
                         count max_retries initial_wait
  = Some (P.get_user_tweets api c username count max_retries initial_wait).
Proof.
  unfold P.get_user_tweets, P.get_user_tweets_fuel.
  destruct (Tweepy.get_user api c username) as [c1 [[uid|]|e]]; auto.
  destruct (fetch_loop_terminates api uid count max_retries initial_wait
              (P.enough_fuel count max_retries) c1
              (P.mkLoop [] None count 0)) as [[[c2 evs] ex] ->];
    [|reflexivity].
  unfold budget, P.enough_fuel. simpl. rewrite Z.sub_0_r. lia.
Qed.

(** Whatever number of iterations is allowed, a fetch that returns
    returns what [get_user_tweets] does. *)
Lemma get_user_tweets_fuel_agrees fuel c username count max_retries
    initial_wait r :
  P.get_user_tweets_fuel api fuel c username count max_retries initial_wait
    = Some r ->
  r = P.get_user_tweets api c username count max_retries initial_wait.
Proof.
  intros H.
  pose proof (get_user_tweets_fuel_enough c username count max_retries
                initial_wait) as He.
  eapply get_user_tweets_fuel_more in H; [|apply (Nat.le_max_l _ (P.enough_fuel count max_retries))].
  eapply get_user_tweets_fuel_more in He; [|apply (Nat.le_max_r fuel)].
  congruence.
Qed.

Lemma get_user_tweets_run c username count max_retries initial_wait :
  fetch_run api c username count max_retries initial_wait
    (P.get_user_tweets api c username count max_retries initial_wait).
Proof.
  eapply get_user_tweets_fuel_run, get_user_tweets_fuel_enough.
Qed.

End FetchFacts.

(** ** The loop of [twitter_etl.py] *)

Section LoopFactsEtl.
Context (api : Tweepy.Client) (uid count wait_time : Z).

Local Abbreviation loop fuel := (TwitterEtl.fetch_loop api fuel uid count wait_time).

Ltac step c st :=
  destruct (Tweepy.get_users_tweets api c uid
              (Z.min (TwitterEtl.remaining_count st) 100)
              (TwitterEtl.next_token st))
    as [c1 [[[[|tw page]|] next]|[| |]]]; simpl.

(** Every wait of a run of the loop has the same length. *)
Lemma etl_fetch_loop_sleeps : forall fuel c st c' evs ex,
  loop fuel c st = Some (c', evs, ex) ->
  exists n : nat, sleeps evs = repeat wait_time n.
Proof.
  induction fuel as [|fuel IH]; intros c st c' evs ex H; [discriminate|].
  simpl in H.
  destruct (TwitterEtl.remaining_count st >? 0).
  2:{ injection H as <- <- <-. now exists O. }
  revert H. step c st; intros H.
  1,3: injection H as <- <- <-; now exists O.
  3,4: injection H as <- <- <-; now exists O.
  - destruct (negb _ || _).
    + injection H as <- <- <-. now exists O.
    + destruct (loop fuel c1 _) as [[[c2 evs2] ex2]|] eqn:E; [|discriminate].
      simpl in H. injection H as <- <- <-.
      apply IH in E. exact E.
  - destruct (sleep _ _) as [slept|] eqn:Esl.
    2:{ injection H as <- <- <-. now exists O. }
    + apply sleep_some in Esl. destruct Esl as [-> _].
      destruct (loop fuel c1 _) as [[[c2 evs2] ex2]|] eqn:E; [|discriminate].
      simpl in H. injection H as <- <- <-.
      apply IH in E. destruct E as [n E]. exists (S n). simpl. now rewrite E.
Qed.

Lemma etl_fetch_loop_nothing_remaining fuel c st :
  TwitterEtl.remaining_count st <= 0 ->
  loop (S fuel) c st = Some (c, [], TwitterEtl.Exited st).
Proof.
  intros H. simpl.
  destruct (TwitterEtl.remaining_count st >? 0) eqn:E; [|reflexivity].
  apply Z.gtb_lt in E. lia.
Qed.

(** With such a client no number of iterations ends the loop. *)
Lemma etl_fetch_loop_never_ends :
  persistently_limited api -> sleep_succeeds api wait_time ->
  forall fuel c st,
    0 < TwitterEtl.remaining_count st -> loop fuel c st = None.
Proof.
  intros Hlim Hw.
  induction fuel as [|fuel IH]; intros c st Hr; [reflexivity|].
  simpl.
  destruct (TwitterEtl.remaining_count st >? 0) eqn:E;
    [|rewrite Z.gtb_ltb in E; apply Z.ltb_ge in E; lia].
  specialize (Hlim c uid (Z.min (TwitterEtl.remaining_count st) 100)
                   (TwitterEtl.next_token st)).
  destruct (Tweepy.get_users_tweets _ _ _ _ _) as [c1 r]. simpl in Hlim.
  subst r. rewrite (Hw c1). now rewrite IH.
Qed.

End LoopFactsEtl.

(** ** The transformer *)

Lemma transform_tweets_etl_same :
  TwitterEtl.transform_tweets = P.transform_tweets.
Proof. reflexivity. Qed.

Lemma transform_tweets_sort parse tweets :
  P.transform_tweets parse tweets
  = Pandas.sort_values_descending Row.created_at
      (map (P.transform_row parse) tweets).
Proof. destruct tweets; reflexivity. Qed.

Lemma transform_tweets_perm parse tweets :
  Permutation (map (P.transform_row parse) tweets)
              (P.transform_tweets parse tweets).
Proof. rewrite transform_tweets_sort. apply sort_values_perm. Qed.

(** The rows of the output that have a timestamp come first, newest
    first; the rows without one follow in the order of the input. *)
Lemma transform_tweets_parts parse tweets :
  let rows := map (P.transform_row parse) tweets in
  P.transform_tweets parse tweets
  = map snd (sorted_part Row.created_at rows) ++ Pandas.nans Row.created_at rows.
Proof. apply transform_tweets_sort. Qed.

Lemma sorted_part_has_key {A} (key : A -> option Z) rows :
  Forall (fun r => key r <> None) (map snd (sorted_part key rows)).
Proof.
  apply Forall_map.
  eapply Forall_impl; [|apply sorted_part_key].
  intros p Hp. congruence.
Qed.

(** C6: when every post of the input has a creation timestamp that
    converts, the output of [transform_tweets] (in [p.py] and in
    [twitter_etl.py]) is ordered by [created_at], newest first, and holds
    the transformed posts and nothing else.  The empty input is
    included. *)
Theorem transform_tweets_newest_first parse tweets :
  Forall (valid_timestamp parse) tweets ->
  newest_first (P.transform_tweets parse tweets)
  /\ newest_first (TwitterEtl.transform_tweets parse tweets)
  /\ Permutation (map (P.transform_row parse) tweets)
                 (P.transform_tweets parse tweets).
Proof.
  intros Hv. rewrite transform_tweets_etl_same.
  assert (H : newest_first (P.transform_tweets parse tweets)).
  { unfold newest_first. rewrite transform_tweets_parts.
    rewrite nans_all_valid, app_nil_r; [apply sorted_part_not_older|].
    apply Forall_map. exact Hv. }
  repeat split; try exact H. apply transform_tweets_perm.
Qed.

Lemma transform_tweets_newest_first_witness :
  Forall (valid_timestamp Pandas.parse_iso8601) Examples.dated_posts
  /\ newest_first
       (P.transform_tweets Pandas.parse_iso8601 Examples.dated_posts).
Proof.
  assert (H : Forall (valid_timestamp Pandas.parse_iso8601)
                     Examples.dated_posts)
    by (repeat constructor; discriminate).
  split; [exact H|].
  exact (proj1 (transform_tweets_newest_first Pandas.parse_iso8601
                  Examples.dated_posts H)).
Defined.

(** C7: every post of the input has its row in the output, and in that
    row a missing [likes] or [retweets] is the integer 0 while a count that
    is there (an integer of at most 2^53 in absolute value) is kept; the
    post of the scenario gives exactly the row of the scenario. *)
Theorem transform_tweets_missing_counts :
  (forall parse tweets tweet,
      In tweet tweets ->
      exists row,
        In row (P.transform_tweets parse tweets)
        /\ In row (TwitterEtl.transform_tweets parse tweets)
        /\ row = P.transform_row parse tweet
        /\ Row.likes row
           = match Post.likes tweet with
             | Some n => Count.value n
             | None => 0
             end
        /\ Row.retweets row
           = match Post.retweets tweet with
             | Some n => Count.value n
             | None => 0
             end)
  /\ P.transform_tweets Pandas.parse_iso8601 [Examples.scenario_post]
     = [Row.mk (Py.of_ascii "1")
               (Some (Pandas.days_from_civil 2024 1 1 * Pandas.ns_per_day
                      + 10 * Pandas.ns_per_hour))
               (Py.of_ascii "a b") 0 5 3
               (Some (Pandas.mkDate 2024 1 1)) (Some 10)]
  /\ TwitterEtl.transform_tweets Pandas.parse_iso8601 [Examples.scenario_post]
     = P.transform_tweets Pandas.parse_iso8601 [Examples.scenario_post].
Proof.
  split; [|split; reflexivity].
  intros parse tweets tweet Hin.
  exists (P.transform_row parse tweet).
  rewrite transform_tweets_etl_same.
  assert (In (P.transform_row parse tweet) (P.transform_tweets parse tweets)).
  { eapply Permutation_in; [apply transform_tweets_perm|].
    apply in_map, Hin. }
  repeat split; assumption.
Qed.

(** C10: a post whose creation timestamp does not convert gets a row with
    no timestamp, no date and no hour; the output is the rows with a
    timestamp followed by the rows without one, and the row of every such
    post is in the second part. *)
Theorem transform_tweets_unparsable_last parse tweets :
  exists dated undated,
    P.transform_tweets parse tweets = dated ++ undated
    /\ TwitterEtl.transform_tweets parse tweets = dated ++ undated
    /\ Forall (fun row => Row.created_at row <> None) dated
    /\ Forall (fun row => Row.created_at row = None
                          /\ Row.created_date row = None
                          /\ Row.created_hour row = None) undated
    /\ forall tweet,
         In tweet tweets ->
         Pandas.to_datetime parse (Post.created_at tweet) = None ->
         In (P.transform_row parse tweet) undated.
Proof.
  exists (map snd (sorted_part Row.created_at
                     (map (P.transform_row parse) tweets))),
         (Pandas.nans Row.created_at (map (P.transform_row parse) tweets)).
  rewrite transform_tweets_etl_same.
  split; [apply transform_tweets_parts|].
  split; [apply transform_tweets_parts|].
  split; [apply sorted_part_has_key|].
  split.
  - apply Forall_forall. intros row Hrow.
    apply filter_In in Hrow. destruct Hrow as [Hin Hk].
    apply in_map_iff in Hin. destruct Hin as (tweet & <- & _).
    simpl in *.
    destruct (Pandas.to_datetime parse (Post.created_at tweet));
      [discriminate | auto].
  - intros tweet Hin Hnone. apply filter_In. split; [now apply in_map|].
    simpl. now rewrite Hnone.
Qed.

Example transform_tweets_mixed :
  map Row.id (P.transform_tweets Pandas.parse_iso8601 Examples.mixed_posts)
  = map Py.of_ascii ["1"; "7"; "4"; "5"]%string
  /\ map Row.created_hour
         (P.transform_tweets Pandas.parse_iso8601 Examples.mixed_posts)
     = [Some 10; Some 23; None; None].
Proof. split; reflexivity. Qed.

(** ** The result of the fetch *)

Lemma slice_to_length {A} (l : list A) (n : Z) :
  0 <= n -> Py.len (Py.slice_to l n) <= n.
Proof.
  intros Hn. unfold Py.slice_to, Py.len.
  destruct (0 <=? n) eqn:E; [|apply Z.leb_gt in E; lia].
  pose proof (firstn_le_length (Z.to_nat n) l). lia.
Qed.

Lemma slice_to_nil {A} (n : Z) : Py.slice_to (@nil A) n = [].
Proof.
  unfold Py.slice_to. destruct (0 <=? n); apply firstn_nil.
Qed.

Lemma fetch_loop_not_entered api fuel uid count max_retries initial_wait c st r :
  P.remaining_count st <= 0 ->
  P.fetch_loop api fuel uid count max_retries initial_wait c st = Some r ->
  r = (c, [], P.Exited st).
Proof.
  intros Hr H. destruct fuel; [discriminate|].
  rewrite fetch_loop_nothing_remaining in H by exact Hr. congruence.
Qed.

Lemma etl_fetch_loop_not_entered api fuel uid count wait_time c st r :
  TwitterEtl.remaining_count st <= 0 ->
  TwitterEtl.fetch_loop api fuel uid count wait_time c st = Some r ->
  r = (c, [], TwitterEtl.Exited st).
Proof.
  intros Hr H. destruct fuel; [discriminate|].
  rewrite etl_fetch_loop_nothing_remaining in H by exact Hr. congruence.
Qed.

Lemma after_loop_length count max_retries ex :
  (count <= 0 -> ex = P.Exited (P.mkLoop [] None count 0)) ->
  Py.len (P.after_loop count max_retries ex) <= Z.max count 0.
Proof.
  intros H0. destruct ex as [st| |]; simpl; try (unfold Py.len; simpl; lia).
  destruct (P.retries st >=? max_retries); [unfold Py.len; simpl; lia|].
  destruct (Z.le_gt_cases count 0) as [Hc|Hc].
  - specialize (H0 Hc). injection H0 as ->. simpl.
    rewrite slice_to_nil. unfold Py.len; simpl; lia.
  - pose proof (slice_to_length (P.tweets st) count). lia.
Qed.

Lemma etl_after_loop_length count ex :
  (count <= 0 -> ex = TwitterEtl.Exited (TwitterEtl.mkLoop [] None count)) ->
  Py.len (TwitterEtl.after_loop count ex) <= Z.max count 0.
Proof.
  intros H0. destruct ex as [st|]; simpl; try (unfold Py.len; simpl; lia).
  destruct (Z.le_gt_cases count 0) as [Hc|Hc].
  - specialize (H0 Hc). injection H0 as ->. simpl.
    rewrite slice_to_nil. unfold Py.len; simpl; lia.
  - pose proof (slice_to_length (TwitterEtl.tweets st) count). lia.
Qed.

(** The fetch of [p.py] returns at most [count] posts, and none when
    [count] is negative. *)
Lemma get_user_tweets_length api c username count max_retries initial_wait :
  Py.len (snd (P.get_user_tweets api c username count max_retries
                                 initial_wait))
  <= Z.max count 0.
Proof.
  destruct (get_user_tweets_run api c username count max_retries initial_wait)
    as [c1 r Hu Hr | c1 uid fuel c2 evs ex Hu Hl]; simpl.
  - unfold Py.len; simpl; lia.
  - apply after_loop_length. intros Hc.
    apply fetch_loop_not_entered in Hl; [|exact Hc]. congruence.
Qed.

(** So does the fetch of [twitter_etl.py], whenever it returns. *)
Lemma etl_get_user_tweets_length api fuel c username count max_retries
    wait_time r :
  TwitterEtl.get_user_tweets api fuel c username count max_retries wait_time
    = Some r ->
  Py.len (snd r) <= Z.max count 0.
Proof.
  unfold TwitterEtl.get_user_tweets.
  destruct (Tweepy.get_user api c username) as [c1 [[uid|]|e]].
  - destruct (TwitterEtl.fetch_loop _ _ _ _ _ _ _) as [[[c2 evs] ex]|] eqn:El;
      [|discriminate].
    intros H. injection H as <-. simpl.
    apply etl_after_loop_length. intros Hc.
    apply etl_fetch_loop_not_entered in El; [|exact Hc]. congruence.
  - intros H. injection H as <-. unfold Py.len; simpl; lia.
  - intros H. injection H as <-. unfold Py.len; simpl; lia.
Qed.

(** C4, as the code has it: the fetch returns at most [count] posts when
    [count] is not negative and no post when it is, in [p.py] for every
    client and input, and in [twitter_etl.py] whenever the fetch returns. *)
Theorem fetch_result_length api c username count max_retries initial_wait
    wait_time :
  Py.len (snd (P.get_user_tweets api c username count max_retries
                                 initial_wait))
  <= Z.max count 0
  /\ forall fuel r,
       TwitterEtl.get_user_tweets api fuel c username count max_retries
                                  wait_time = Some r ->
       Py.len (snd r) <= Z.max count 0.
Proof.
  split; [apply get_user_tweets_length|].
  intros fuel r. apply etl_get_user_tweets_length.
Qed.

(** C4, as it is stated, fails for a negative [count]: asked for -1 posts
    the fetch returns the empty list, whose length is above -1. *)
Lemma fetch_result_length_negative_count :
  snd (P.get_user_tweets Examples.scripted Examples.page_then_limited
                         "NASA" (-1) 3 60) = []
  /\ TwitterEtl.get_user_tweets Examples.scripted 1
       Examples.page_then_limited "NASA" (-1) 3 900
     = Some (Examples.page_then_limited, [EGetUser "NASA"], [])
  /\ ~ Py.len (snd (P.get_user_tweets Examples.scripted
                       Examples.page_then_limited "NASA" (-1) 3 60)) <= -1.
Proof.
  split; [reflexivity|]. split; [reflexivity|].
  vm_compute. intros H. apply H. reflexivity.
Qed.

(** C5: when [count] is zero or negative the fetch looks the user up,
    requests no page, waits for nothing and returns the empty list. *)
Theorem fetch_nothing_for_no_count api c username count max_retries
    initial_wait wait_time fuel :
  count <= 0 ->
  P.get_user_tweets api c username count max_retries initial_wait
  = (fst (Tweepy.get_user api c username), [EGetUser username], [])
  /\ TwitterEtl.get_user_tweets api (S fuel) c username count max_retries
                                wait_time
     = Some (fst (Tweepy.get_user api c username), [EGetUser username], [])
  /\ none_of is_page_request
       (snd (fst (P.get_user_tweets api c username count max_retries
                                    initial_wait))).
Proof.
  intros Hc.
  assert (HP : P.get_user_tweets api c username count max_retries initial_wait
               = (fst (Tweepy.get_user api c username),
                  [EGetUser username], [])).
  { unfold P.get_user_tweets, P.get_user_tweets_fuel, P.enough_fuel.
    destruct (Tweepy.get_user api c username) as [c1 [[uid|]|e]]; auto.
    rewrite fetch_loop_nothing_remaining by exact Hc. simpl.
    destruct (0 >=? max_retries); [reflexivity|].
    now rewrite slice_to_nil. }
  split; [exact HP|]. split; [|now rewrite HP].
  unfold TwitterEtl.get_user_tweets.
  destruct (Tweepy.get_user api c username) as [c1 [[uid|]|e]]; auto.
  rewrite etl_fetch_loop_nothing_remaining by exact Hc. simpl.
  now rewrite slice_to_nil.
Qed.

Lemma fetch_nothing_for_no_count_witness :
  -2 <= 0
  /\ P.get_user_tweets Examples.scripted Examples.page_then_limited
                       "NASA" (-2) 3 60
     = (Examples.page_then_limited, [EGetUser "NASA"], []).
Proof.
  split; [lia|].
  exact (proj1 (fetch_nothing_for_no_count Examples.scripted
                  Examples.page_then_limited "NASA" (-2) 3 60 900 0
                  ltac:(lia))).
Defined.

(** C3: when the loop of [p.py] is left with the retry counter at
    [max_retries] or above, [get_user_tweets] returns the empty list
    whatever posts the loop had gathered; the counter is the number of
    waits of the run. *)
Theorem retries_exhausted_returns_nothing api c username count max_retries
    initial_wait fuel uid c1 c2 evs st :
  Tweepy.get_user api c username = (c1, Tweepy.Ok (Some uid)) ->
  P.fetch_loop api fuel uid count max_retries initial_wait c1
               (P.mkLoop [] None count 0) = Some (c2, evs, P.Exited st) ->
  max_retries <= P.retries st ->
  P.get_user_tweets api c username count max_retries initial_wait
  = (c2, EGetUser username :: evs, [])
  /\ P.retries st = Py.len (sleeps evs).
Proof.
  intros Hu Hl Hr. split.
  - symmetry. apply (get_user_tweets_fuel_agrees api fuel).
    unfold P.get_user_tweets_fuel. rewrite Hu, Hl. simpl.
    destruct (P.retries st >=? max_retries) eqn:E; [reflexivity|].
    rewrite Z.geb_leb in E. apply Z.leb_gt in E. lia.
  - apply fetch_loop_sleeps in Hl. destruct Hl as (n & Hs & _ & Hn).
    simpl in Hs, Hn. rewrite Hn, Hs. unfold Py.len.
    now rewrite backoff_length.
Qed.

Lemma retries_exhausted_returns_nothing_witness :
  P.tweets Examples.exhausted <> []
  /\ P.get_user_tweets Examples.scripted Examples.page_then_limited
                       "NASA" 5 3 60
     = ([], [EGetUser "NASA"; EGetUsersTweets 11 5 None;
             EGetUsersTweets 11 3 (Some "t1"%string); ESleep 60;
             EGetUsersTweets 11 3 (Some "t1"%string); ESleep 120;
             EGetUsersTweets 11 3 (Some "t1"%string); ESleep 240], []).
Proof.
  split; [discriminate|].
  exact (proj1 (retries_exhausted_returns_nothing Examples.scripted
                  Examples.page_then_limited "NASA" 5 3 60 5 11
                  Examples.page_then_limited [] _ Examples.exhausted
                  eq_refl eq_refl ltac:(vm_compute; discriminate))).
Defined.

(** ** Waits and termination *)

Lemma wait_before_retry_backoff initial_wait evs n k w :
  sleeps evs = backoff initial_wait 0 n ->
  wait_before_retry evs k = Some w ->
  w = initial_wait * 2 ^ (Z.of_nat k - 1) /\ (1 <= k <= n)%nat.
Proof.
  intros Hs H. destruct k as [|k]; [discriminate|].
  simpl in H. rewrite Hs in H. apply backoff_nth in H.
  destruct H as [-> Hk]. split; [f_equal; f_equal|]; lia.
Qed.

Lemma backoff_nth_some initial_wait : forall n r k,
  (k < n)%nat ->
  nth_error (backoff initial_wait r n) k
  = Some (initial_wait * 2 ^ (r + Z.of_nat k)).
Proof.
  induction n as [|n IH]; intros r k Hk; [lia|].
  destruct k; simpl.
  - now rewrite Z.add_0_r.
  - rewrite IH by lia. do 3 f_equal. lia.
Qed.

(** The waits of a fetch of [p.py] are those of the first retries, and
    there are at most [max_retries] of them. *)
Lemma get_user_tweets_sleeps api c username count max_retries initial_wait :
  exists n : nat,
    sleeps (snd (fst (P.get_user_tweets api c username count max_retries
                                        initial_wait)))
    = backoff initial_wait 0 n
    /\ (n = O \/ Z.of_nat n <= max_retries).
Proof.
  destruct (get_user_tweets_run api c username count max_retries initial_wait)
    as [c1 r Hu Hr | c1 uid fuel c2 evs ex Hu Hl]; simpl.
  - exists O. auto.
  - apply fetch_loop_sleeps in Hl. destruct Hl as (n & Hs & Hn & _).
    exists n. simpl in *. auto.
Qed.

(** Under rate-limit errors only, the loop of [p.py] waits once for each
    retry that is left and keeps what it had. *)
Lemma fetch_loop_persistently_limited api uid count max_retries initial_wait :
  persistently_limited api ->
  forall fuel c st c' evs ex,
    0 < P.remaining_count st -> 0 <= P.retries st ->
    (forall k, P.retries st <= k < max_retries ->
               sleep_succeeds api (initial_wait * 2 ^ k)) ->
    P.fetch_loop api fuel uid count max_retries initial_wait c st
    = Some (c', evs, ex) ->
    sleeps evs
    = backoff initial_wait (P.retries st)
              (Z.to_nat (max_retries - P.retries st))
    /\ ex = P.Exited (P.mkLoop (P.tweets st) (P.next_token st)
                              (P.remaining_count st)
                              (Z.max max_retries (P.retries st))).
Proof.
  intros Hlim.
  induction fuel as [|fuel IH]; intros c st c' evs ex Hrem Hret Hw H;
    [discriminate|].
  simpl in H.
  destruct (P.remaining_count st >? 0) eqn:E1;
    [|rewrite Z.gtb_ltb in E1; apply Z.ltb_ge in E1; lia].
  destruct (P.retries st <? max_retries) eqn:E2; simpl in H.
  - apply Z.ltb_lt in E2.
    specialize (Hlim c uid (Z.min (P.remaining_count st) 100)
                     (P.next_token st)).
    destruct (Tweepy.get_users_tweets _ _ _ _ _) as [c1 r]. simpl in Hlim.
    subst r.
    replace (P.retries st + 1 - 1) with (P.retries st) in H by lia.
    rewrite (Hw (P.retries st) ltac:(lia) c1) in H.
    destruct (P.fetch_loop _ _ _ _ _ _ _ _) as [[[c2 evs2] ex2]|] eqn:El;
      [|discriminate].
    simpl in H. injection H as <- <- <-.
    apply IH in El; simpl; try lia; [|intros k Hk; apply Hw; lia].
    simpl in El. destruct El as [Hs ->].
    replace (Z.to_nat (max_retries - P.retries st))
      with (S (Z.to_nat (max_retries - (P.retries st + 1)))) by lia.
    simpl. rewrite Hs. split; [reflexivity|].
    do 2 f_equal. lia.
  - apply Z.ltb_ge in E2. injection H as <- <- <-.
    replace (Z.to_nat (max_retries - P.retries st)) with O by lia.
    split; [reflexivity|]. destruct st as [tw tok rem ret]; simpl in *.
    do 2 f_equal. lia.
Qed.

(** If every page request is rate limited and [time.sleep] accepts the
    waits, the fetch of [p.py] waits [max_retries] times, each wait twice
    the one before, and returns the empty list. *)
Theorem rate_limited_on_every_attempt api c username count max_retries
    initial_wait c1 uid :
  persistently_limited api ->
  Tweepy.get_user api c username = (c1, Tweepy.Ok (Some uid)) ->
  0 < count ->
  (forall k, 0 <= k < max_retries ->
             sleep_succeeds api (initial_wait * 2 ^ k)) ->
  snd (P.get_user_tweets api c username count max_retries initial_wait) = []
  /\ sleeps (snd (fst (P.get_user_tweets api c username count max_retries
                                         initial_wait)))
     = backoff initial_wait 0 (Z.to_nat max_retries).
Proof.
  intros Hlim Hu Hc Hw.
  destruct (get_user_tweets_run api c username count max_retries initial_wait)
    as [c1' r Hu' Hr | c1' uid' fuel c2 evs ex Hu' Hl]; simpl.
  - rewrite Hu in Hu'. injection Hu' as _ <-. now destruct (Hr uid).
  - eapply fetch_loop_persistently_limited in Hl; simpl; try lia; auto.
    simpl in Hl. destruct Hl as [Hs ->]. rewrite Z.sub_0_r in Hs.
    split; [|exact Hs]. simpl.
    destruct (Z.max max_retries 0 >=? max_retries) eqn:E; [reflexivity|].
    rewrite Z.geb_leb in E. apply Z.leb_gt in E. lia.
Qed.

(** X18: the fetch of [p.py] returns for every client and input, within
    [enough_fuel] iterations of the loop, and waits at most [max_retries]
    times. *)
Theorem get_user_tweets_terminates api c username count max_retries
    initial_wait :
  (forall fuel,
      (P.enough_fuel count max_retries <= fuel)%nat ->
      P.get_user_tweets_fuel api fuel c username count max_retries
                             initial_wait
      = Some (P.get_user_tweets api c username count max_retries
                                initial_wait))
  /\ Py.len (sleeps (snd (fst (P.get_user_tweets api c username count
                                                 max_retries initial_wait))))
     <= Z.max max_retries 0.
Proof.
  split.
  - intros fuel Hf. eapply get_user_tweets_fuel_more; [exact Hf|].
    apply get_user_tweets_fuel_enough.
  - destruct (get_user_tweets_sleeps api c username count max_retries
                initial_wait) as (n & -> & Hn).
    unfold Py.len. rewrite backoff_length. lia.
Qed.

(** The fetch of [twitter_etl.py] for at least one tweet does not return
    when every page request is rate limited and [time.sleep] accepts
    [wait_time], whatever [max_retries] is. *)
Lemma etl_fetch_diverges_when_limited api c username count max_retries
    wait_time c1 uid :
  persistently_limited api ->
  Tweepy.get_user api c username = (c1, Tweepy.Ok (Some uid)) ->
  0 < count -> sleep_succeeds api wait_time ->
  forall fuel,
    TwitterEtl.get_user_tweets api fuel c username count max_retries wait_time
    = None.
Proof.
  intros Hlim Hu Hc Hw fuel. unfold TwitterEtl.get_user_tweets. rewrite Hu.
  now rewrite etl_fetch_loop_never_ends.
Qed.

(** C2, in [twitter_etl.py]: with a client that answers every page request
    with a rate-limit error, no number of iterations lets the fetch for
    five tweets return, and the job does not return either. *)
Theorem etl_fetch_never_returns :
  forall fuel,
    TwitterEtl.get_user_tweets Examples.always_limited fuel tt "NASA" 5 3 900
    = None
    /\ TwitterEtl.run_twitter_etl Examples.always_limited
         Pandas.parse_iso8601 Examples.all_set fuel tt = None.
Proof.
  intros fuel.
  assert (H : TwitterEtl.get_user_tweets Examples.always_limited fuel tt
                "NASA" 5 3 900 = None).
  { apply (etl_fetch_diverges_when_limited Examples.always_limited tt
             "NASA" 5 3 900 tt 11).
    - intros c uid max_results token. reflexivity.
    - reflexivity.
    - lia.
    - intros c. reflexivity. }
  split; [exact H|].
  unfold TwitterEtl.run_twitter_etl. now rewrite H.
Qed.

(** The handlers of a rate-limit error, one iteration at a time. *)
Lemma fetch_loop_rate_limited api fuel uid count max_retries initial_wait
    c0 c1 st :
  0 < P.remaining_count st -> P.retries st < max_retries ->
  Tweepy.get_users_tweets api c0 uid (Z.min (P.remaining_count st) 100)
                          (P.next_token st)
  = (c1, Tweepy.Raise Tweepy.TooManyRequests) ->
  P.fetch_loop api (S fuel) uid count max_retries initial_wait c0 st
  = let request :=
      EGetUsersTweets uid (Z.min (P.remaining_count st) 100)
                      (P.next_token st) in
    let wait := initial_wait * 2 ^ (P.retries st + 1 - 1) in
    match sleep (Tweepy.sleep_accepts api c1 wait) wait with
    | Some slept =>
        P.prepend api [request; slept]
          (P.fetch_loop api fuel uid count max_retries initial_wait c1
             (P.mkLoop (P.tweets st) (P.next_token st) (P.remaining_count st)
                       (P.retries st + 1)))
    | None => Some (c1, [request], P.Raised)
    end.
Proof.
  intros Hr Ht Hg. cbn [P.fetch_loop].
  destruct (P.remaining_count st >? 0) eqn:E1;
    [|rewrite Z.gtb_ltb in E1; apply Z.ltb_ge in E1; lia].
  destruct (P.retries st <? max_retries) eqn:E2; [|apply Z.ltb_ge in E2; lia].
  cbn [andb]. rewrite Hg. reflexivity.
Qed.

Lemma etl_fetch_loop_rate_limited api fuel uid count wait_time c0 c1 st :
  0 < TwitterEtl.remaining_count st ->
  Tweepy.get_users_tweets api c0 uid
    (Z.min (TwitterEtl.remaining_count st) 100) (TwitterEtl.next_token st)
  = (c1, Tweepy.Raise Tweepy.TooManyRequests) ->
  TwitterEtl.fetch_loop api (S fuel) uid count wait_time c0 st
  = let request :=
      EGetUsersTweets uid (Z.min (TwitterEtl.remaining_count st) 100)
                      (TwitterEtl.next_token st) in
    match sleep (Tweepy.sleep_accepts api c1 wait_time) wait_time with
    | Some slept =>
        TwitterEtl.prepend api [request; slept]
          (TwitterEtl.fetch_loop api fuel uid count wait_time c1 st)
    | None => Some (c1, [request], TwitterEtl.Raised)
    end.
Proof.
  intros Hr Hg. cbn [TwitterEtl.fetch_loop].
  destruct (TwitterEtl.remaining_count st >? 0) eqn:E1;
    [|rewrite Z.gtb_ltb in E1; apply Z.ltb_ge in E1; lia].
  rewrite Hg. reflexivity.
Qed.

(** C1, as the code has it.

    In [p.py], an iteration of the loop whose page request is answered
    with a rate-limit error raises the retry counter by one and calls
    [time.sleep] with [initial_wait * 2^(retries-1)] seconds, [retries]
    being the counter once raised; when [time.sleep] accepts the length
    the loop goes on with the counter raised and nothing else changed, so
    that the same page is requested again if a retry is left; when it does
    not, the fetch is over and returns the empty list.  Over a whole fetch, the wait before
    retry number [k] is [initial_wait * 2^(k-1)] seconds long and [k] is
    at most [max_retries]; when every page request is rate limited and
    [time.sleep] accepts these lengths there is such a wait for every [k]
    from 1 to [max_retries].

    In [twitter_etl.py] the iteration calls [time.sleep] with [wait_time]
    seconds and, when the length is accepted, the loop goes on with
    nothing changed; every wait of a fetch is [wait_time] seconds long. *)
Theorem backoff_waits api c username count max_retries initial_wait
    wait_time :
  (forall fuel uid c0 c1 st,
      0 < P.remaining_count st -> P.retries st < max_retries ->
      Tweepy.get_users_tweets api c0 uid (Z.min (P.remaining_count st) 100)
                              (P.next_token st)
      = (c1, Tweepy.Raise Tweepy.TooManyRequests) ->
      let request :=
        EGetUsersTweets uid (Z.min (P.remaining_count st) 100)
                        (P.next_token st) in
      let retries := P.retries st + 1 in
      let wait := initial_wait * 2 ^ (retries - 1) in
      (sleep (Tweepy.sleep_accepts api c1 wait) wait = Some (ESleep wait) ->
       P.fetch_loop api (S fuel) uid count max_retries initial_wait c0 st
       = P.prepend api [request; ESleep wait]
           (P.fetch_loop api fuel uid count max_retries initial_wait c1
              (P.mkLoop (P.tweets st) (P.next_token st)
                        (P.remaining_count st) retries)))
      /\ (sleep (Tweepy.sleep_accepts api c1 wait) wait = None ->
          P.fetch_loop api (S fuel) uid count max_retries initial_wait c0 st
          = Some (c1, [request], P.Raised)
          /\ P.after_loop count max_retries P.Raised = []))
  /\ (forall k w,
         wait_before_retry
           (snd (fst (P.get_user_tweets api c username count max_retries
                                        initial_wait))) k = Some w ->
         w = initial_wait * 2 ^ (Z.of_nat k - 1)
         /\ 1 <= Z.of_nat k <= max_retries)
  /\ (persistently_limited api ->
      (exists uid, snd (Tweepy.get_user api c username)
                   = Tweepy.Ok (Some uid)) ->
      0 < count ->
      (forall k, 0 <= k < max_retries ->
                 sleep_succeeds api (initial_wait * 2 ^ k)) ->
      forall k,
        1 <= Z.of_nat k <= max_retries ->
        wait_before_retry
          (snd (fst (P.get_user_tweets api c username count max_retries
                                       initial_wait))) k
        = Some (initial_wait * 2 ^ (Z.of_nat k - 1)))
  /\ (forall fuel uid c0 c1 st,
         0 < TwitterEtl.remaining_count st ->
         Tweepy.get_users_tweets api c0 uid
           (Z.min (TwitterEtl.remaining_count st) 100)
           (TwitterEtl.next_token st)
         = (c1, Tweepy.Raise Tweepy.TooManyRequests) ->
         let request :=
           EGetUsersTweets uid (Z.min (TwitterEtl.remaining_count st) 100)
                           (TwitterEtl.next_token st) in
         (sleep (Tweepy.sleep_accepts api c1 wait_time) wait_time
          = Some (ESleep wait_time) ->
          TwitterEtl.fetch_loop api (S fuel) uid count wait_time c0 st
          = TwitterEtl.prepend api [request; ESleep wait_time]
              (TwitterEtl.fetch_loop api fuel uid count wait_time c1 st))
         /\ (sleep (Tweepy.sleep_accepts api c1 wait_time) wait_time = None ->
             TwitterEtl.fetch_loop api (S fuel) uid count wait_time c0 st
             = Some (c1, [request], TwitterEtl.Raised)
             /\ TwitterEtl.after_loop count TwitterEtl.Raised = []))
  /\ (forall fuel c' evs tweets k w,
         TwitterEtl.get_user_tweets api fuel c username count max_retries
                                    wait_time = Some (c', evs, tweets) ->
         wait_before_retry evs k = Some w ->
         w = wait_time).
Proof.
  split; [|split; [|split; [|split]]].
  - intros fuel uid c0 c1 st Hr Ht Hg. cbv zeta.
    rewrite (fetch_loop_rate_limited _ _ _ _ _ _ _ _ _ Hr Ht Hg). cbv zeta.
    split; intros ->; auto.
  - intros k w H.
    destruct (get_user_tweets_sleeps api c username count max_retries
                initial_wait) as (n & Hs & Hn).
    eapply wait_before_retry_backoff in H; [|exact Hs].
    destruct H as [-> Hk]. split; [reflexivity|]. lia.
  - intros Hlim [uid Hu] Hc Hw k Hk.
    destruct (Tweepy.get_user api c username) as [c1 r] eqn:Eu.
    simpl in Hu. subst r.
    destruct (rate_limited_on_every_attempt api c username count max_retries
                initial_wait c1 uid Hlim Eu Hc Hw) as [_ Hs].
    destruct k as [|k]; [lia|]. cbn [wait_before_retry]. rewrite Hs.
    rewrite backoff_nth_some by lia. do 3 f_equal. lia.
  - intros fuel uid c0 c1 st Hr Hg. cbv zeta.
    rewrite (etl_fetch_loop_rate_limited _ _ _ _ _ _ _ _ Hr Hg). cbv zeta.
    split; intros ->; auto.
  - intros fuel c' evs tweets k w H Hk.
    assert (Hs : exists n : nat, sleeps evs = repeat wait_time n).
    { unfold TwitterEtl.get_user_tweets in H.
      destruct (Tweepy.get_user api c username) as [c1 [[uid|]|e]].
      - destruct (TwitterEtl.fetch_loop _ _ _ _ _ _ _)
          as [[[c2 evs2] ex]|] eqn:El; [|discriminate].
        injection H as <- <- <-. simpl.
        eapply etl_fetch_loop_sleeps. exact El.
      - injection H as <- <- <-. now exists O.
      - injection H as <- <- <-. now exists O. }
    destruct Hs as [n Hs]. destruct k as [|k]; [discriminate|].
    simpl in Hk. rewrite Hs in Hk. apply nth_error_In, repeat_spec in Hk.
    exact Hk.
Qed.

Lemma backoff_waits_witness :
  wait_before_retry
    (snd (fst (P.get_user_tweets Examples.always_limited tt "NASA" 5 3 60)))
    3 = Some 240
  /\ 240 = 60 * 2 ^ (Z.of_nat 3 - 1)
  /\ 1 <= Z.of_nat 3 <= 3.
Proof.
  split; [reflexivity|].
  exact (proj1 (proj2 (backoff_waits Examples.always_limited tt "NASA" 5 3
                         60 900))
               3%nat 240 eq_refl).
Defined.

(** C1, as it is stated, fails in [twitter_etl.py]: after two rate-limit
    errors the second wait is as long as the first, 900 seconds, not twice
    as long. *)
Lemma etl_second_wait_not_doubled :
  option_map (fun r => wait_before_retry (snd (fst r)) 2)
    (TwitterEtl.get_user_tweets Examples.scripted 3 Examples.limited_twice
                                "NASA" 5 3 900)
  = Some (Some 900)
  /\ 900 <> 900 * 2 ^ (2 - 1).
Proof. split; [reflexivity | discriminate]. Qed.

(** ** The job *)

Lemma none_of_app p evs1 evs2 :
  none_of p evs1 -> none_of p evs2 -> none_of p (evs1 ++ evs2).
Proof.
  unfold none_of. intros H1 H2. now rewrite filter_app, H1, H2.
Qed.

Lemma none_of_kind (p q : Event -> bool) evs :
  forallb q evs = true ->
  (forall e, q e = true -> p e = false) ->
  none_of p evs.
Proof.
  intros Hq Hpq. unfold none_of.
  induction evs as [|e evs IH]; simpl in *; [reflexivity|].
  apply andb_true_iff in Hq. destruct Hq as [He Hq].
  rewrite (Hpq e He). auto.
Qed.

Lemma load_variables_events env keys :
  forallb is_variable_get (fst (P.load_variables env keys)) = true.
Proof.
  induction keys as [|key keys IH]; simpl; [reflexivity|].
  destruct (variable_get env key); [|reflexivity].
  destruct (P.load_variables env keys) as [evs r]. simpl in *. exact IH.
Qed.

Lemma fetch_loop_events api uid count max_retries initial_wait :
  forall fuel c st c' evs ex,
    P.fetch_loop api fuel uid count max_retries initial_wait c st
    = Some (c', evs, ex) ->
    forallb is_fetch evs = true.
Proof.
  induction fuel as [|fuel IH]; intros c st c' evs ex H; [discriminate|].
  simpl in H.
  destruct ((P.remaining_count st >? 0) && (P.retries st <? max_retries)).
  2:{ now injection H as <- <- <-. }
  destruct (Tweepy.get_users_tweets _ _ _ _ _)
    as [c1 [[[[|tw page]|] next]|[| |]]]; simpl in H;
    try (now injection H as <- <- <-).
  - destruct (negb _ || _); [now injection H as <- <- <-|].
    destruct (P.fetch_loop _ _ _ _ _ _ _ _) as [[[c2 evs2] ex2]|] eqn:E;
      [|discriminate].
    simpl in H. injection H as <- <- <-. simpl. eapply IH, E.
  - destruct (sleep _ _) as [slept|] eqn:Esl;
      [|now injection H as <- <- <-].
    apply sleep_some in Esl. destruct Esl as [-> _].
    destruct (P.fetch_loop _ _ _ _ _ _ _ _) as [[[c2 evs2] ex2]|] eqn:E;
      [|discriminate].
    simpl in H. injection H as <- <- <-. simpl. eapply IH, E.
Qed.

Lemma etl_fetch_loop_events api uid count wait_time :
  forall fuel c st c' evs ex,
    TwitterEtl.fetch_loop api fuel uid count wait_time c st
    = Some (c', evs, ex) ->
    forallb is_fetch evs = true.
Proof.
  induction fuel as [|fuel IH]; intros c st c' evs ex H; [discriminate|].
  simpl in H.
  destruct (TwitterEtl.remaining_count st >? 0).
  2:{ now injection H as <- <- <-. }
  destruct (Tweepy.get_users_tweets _ _ _ _ _)
    as [c1 [[[[|tw page]|] next]|[| |]]]; simpl in H;
    try (now injection H as <- <- <-).
  - destruct (negb _ || _); [now injection H as <- <- <-|].
    destruct (TwitterEtl.fetch_loop _ _ _ _ _ _ _) as [[[c2 evs2] ex2]|] eqn:E;
      [|discriminate].
    simpl in H. injection H as <- <- <-. simpl. eapply IH, E.
  - destruct (sleep _ _) as [slept|] eqn:Esl;
      [|now injection H as <- <- <-].
    apply sleep_some in Esl. destruct Esl as [-> _].
    destruct (TwitterEtl.fetch_loop _ _ _ _ _ _ _) as [[[c2 evs2] ex2]|] eqn:E;
      [|discriminate].
    simpl in H. injection H as <- <- <-. simpl. eapply IH, E.
Qed.

Lemma get_user_tweets_events api c username count max_retries initial_wait :
  forallb is_fetch
    (snd (fst (P.get_user_tweets api c username count max_retries
                                 initial_wait))) = true.
Proof.
  destruct (get_user_tweets_run api c username count max_retries initial_wait)
    as [c1 r Hu Hr | c1 uid fuel c2 evs ex Hu Hl]; simpl; [reflexivity|].
  eapply fetch_loop_events, Hl.
Qed.

Lemma etl_get_user_tweets_events api fuel c username count max_retries
    wait_time c' evs tweets :
  TwitterEtl.get_user_tweets api fuel c username count max_retries wait_time
  = Some (c', evs, tweets) ->
  forallb is_fetch evs = true.
Proof.
  unfold TwitterEtl.get_user_tweets.
  destruct (Tweepy.get_user api c username) as [c1 [[uid|]|e]];
    try (intros H; now injection H as <- <- <-).
  destruct (TwitterEtl.fetch_loop _ _ _ _ _ _ _) as [[[c2 evs2] ex]|] eqn:El;
    [|discriminate].
  intros H. injection H as <- <- <-. simpl. eapply etl_fetch_loop_events, El.
Qed.

(** C8: when the fetch returns no post the job ends with the error the
    specification calls [NoDataError]; the transformer is not called, no
    file is written and nothing is uploaded.  In [p.py] the fetch is
    reached when the five credentials are set and the quota check reports
    at least one request left; in [twitter_etl.py] it is the first step. *)
Theorem no_tweets_fails_the_job api parse env c0 :
  (snd (P.load_variables env P.credentials) = Success ->
   1 <= snd (P.check_rate_limits api c0) ->
   snd (P.get_user_tweets api (fst (fst (P.check_rate_limits api c0)))
                          "NASA" 5 3 60) = [] ->
   snd (P.run_twitter_etl api parse env c0) = Failure NoDataError
   /\ none_of touches_data (fst (P.run_twitter_etl api parse env c0)))
  /\ (forall fuel c1 evs,
         TwitterEtl.get_user_tweets api fuel c0 "NASA" 5 3 900
         = Some (c1, evs, []) ->
         TwitterEtl.run_twitter_etl api parse env fuel c0
         = Some (evs, Failure NoDataError)
         /\ none_of touches_data evs).
Proof.
  split.
  - intros Hv Hq Hf. unfold P.run_twitter_etl.
    pose proof (load_variables_events env P.credentials) as Hev.
    destruct (P.load_variables env P.credentials) as [evs0 r0].
    simpl in Hv, Hev. subst r0.
    destruct (P.check_rate_limits api c0) as [[c1 evs1] remaining] eqn:Ec.
    simpl in Hq, Hf.
    assert (Hev1 : evs1 = [ERateLimitStatus]).
    { unfold P.check_rate_limits in Ec.
      destruct (Tweepy.get_rate_limit_status api c0) as [c' [status|e]];
        congruence. }
    destruct (remaining <? 1) eqn:E; [apply Z.ltb_lt in E; lia|].
    pose proof (get_user_tweets_events api c1 "NASA" 5 3 60) as Hev2.
    destruct (P.get_user_tweets api c1 "NASA" 5 3 60) as [[c2 evs2] tweets].
    simpl in Hf, Hev2. subst tweets evs1. simpl.
    split; [reflexivity|].
    apply none_of_app; [eapply none_of_kind; [exact Hev|now intros []]|].
    unfold none_of. simpl. rewrite app_nil_r.
    eapply none_of_kind; [exact Hev2|now intros []].
  - intros fuel c1 evs H. unfold TwitterEtl.run_twitter_etl. rewrite H.
    simpl. rewrite app_nil_r. split; [reflexivity|].
    apply etl_get_user_tweets_events in H.
    eapply none_of_kind; [exact H|now intros []].
Qed.

Lemma no_tweets_fails_the_job_witness :
  snd (P.get_user_tweets Examples.always_limited tt "NASA" 5 3 60) = []
  /\ snd (P.run_twitter_etl Examples.always_limited Pandas.parse_iso8601
                            Examples.all_set tt)
     = Failure NoDataError
  /\ none_of touches_data
       (fst (P.run_twitter_etl Examples.always_limited Pandas.parse_iso8601
                               Examples.all_set tt)).
Proof.
  split; [reflexivity|].
  apply (proj1 (no_tweets_fails_the_job Examples.always_limited
                  Pandas.parse_iso8601 Examples.all_set tt)).
  - reflexivity.
  - vm_compute. discriminate.
  - reflexivity.
Defined.

(** C9: when the quota query of [p.py] raises, [check_rate_limits] returns
    0 and the job, its credentials being set, ends with the error raised
    for an exhausted quota before any call of the fetch; the run is the
    same, event for event, as a run in which the query reports that no
    request is left. *)
Theorem failed_quota_check_fails_the_job api parse env c0 c1 e :
  snd (P.load_variables env P.credentials) = Success ->
  Tweepy.get_rate_limit_status api c0 = (c1, Tweepy.Raise e) ->
  P.check_rate_limits api c0 = (c1, [ERateLimitStatus], 0)
  /\ snd (P.run_twitter_etl api parse env c0) = Failure RateLimitExhausted
  /\ none_of is_fetch (fst (P.run_twitter_etl api parse env c0))
  /\ forall api' c0' c1' reset,
       Tweepy.get_rate_limit_status api' c0'
       = (c1', Tweepy.Ok (Tweepy.mkRateLimit 0 reset)) ->
       P.run_twitter_etl api' parse env c0'
       = P.run_twitter_etl api parse env c0.
Proof.
  intros Hv Hs.
  assert (Hc : P.check_rate_limits api c0 = (c1, [ERateLimitStatus], 0))
    by (unfold P.check_rate_limits; now rewrite Hs).
  split; [exact Hc|].
  unfold P.run_twitter_etl. rewrite Hc.
  pose proof (load_variables_events env P.credentials) as Hev.
  destruct (P.load_variables env P.credentials) as [evs0 r0].
  simpl in Hv, Hev. subst r0. simpl.
  split; [reflexivity|]. split.
  - apply none_of_app; [|reflexivity].
    eapply none_of_kind; [exact Hev|now intros []].
  - intros api' c0' c1' reset Hs'.
    unfold P.check_rate_limits. now rewrite Hs'.
Qed.

Lemma failed_quota_check_fails_the_job_witness :
  snd (Tweepy.get_rate_limit_status Examples.scripted
         Examples.page_then_limited)
  = Tweepy.Raise Tweepy.OtherException
  /\ P.check_rate_limits Examples.scripted Examples.page_then_limited
     = (Examples.page_then_limited, [ERateLimitStatus], 0)
  /\ snd (P.run_twitter_etl Examples.scripted Pandas.parse_iso8601
                            Examples.all_set Examples.page_then_limited)
     = Failure RateLimitExhausted.
Proof.
  split; [reflexivity|].
  destruct (failed_quota_check_fails_the_job Examples.scripted
              Pandas.parse_iso8601 Examples.all_set
              Examples.page_then_limited Examples.page_then_limited
              Tweepy.OtherException eq_refl eq_refl) as (H1 & H2 & _).
  split; [exact H1 | exact H2].
Defined.

(** * Further properties *)

(** ** Page requests *)

(** The events of a run of the loop of [p.py] start with the request for
    the page its variables describe, unless the loop is not entered. *)
Lemma fetch_loop_head api fuel uid count max_retries initial_wait c st c' evs ex :
  P.fetch_loop api fuel uid count max_retries initial_wait c st
  = Some (c', evs, ex) ->
  (evs = [] /\ ex = P.Exited st /\ c' = c)
  \/ exists evs',
       evs = EGetUsersTweets uid (Z.min (P.remaining_count st) 100)
                             (P.next_token st) :: evs'.
Proof.
  destruct fuel as [|fuel]; [discriminate|]. simpl.
  destruct ((P.remaining_count st >? 0) && (P.retries st <? max_retries)).
  2:{ intros H. injection H as <- <- <-. now left. }
  destruct (Tweepy.get_users_tweets _ _ _ _ _)
    as [c1 [[[[|tw page]|] next]|[| |]]]; simpl;
    try (intros H; injection H as <- <- <-; right; eauto).
  - destruct (negb _ || _);
      [intros H; injection H as <- <- <-; right; eauto|].
    destruct (P.fetch_loop _ _ _ _ _ _ _ _) as [[[c2 evs2] ex2]|];
      [|discriminate].
    simpl. intros H. injection H as <- <- <-. right; eauto.
  - destruct (sleep _ _) as [slept|] eqn:Esl;
      [|intros H; injection H as <- <- <-; right; eauto].
    apply sleep_some in Esl. destruct Esl as [-> _].
    destruct (P.fetch_loop _ _ _ _ _ _ _ _) as [[[c2 evs2] ex2]|];
      [|discriminate].
    simpl. intros H. injection H as <- <- <-. right; eauto.
Qed.

Lemma etl_fetch_loop_head api fuel uid count wait_time c st c' evs ex :
  TwitterEtl.fetch_loop api fuel uid count wait_time c st
  = Some (c', evs, ex) ->
  (evs = [] /\ ex = TwitterEtl.Exited st /\ c' = c)
  \/ exists evs',
       evs = EGetUsersTweets uid (Z.min (TwitterEtl.remaining_count st) 100)
                             (TwitterEtl.next_token st) :: evs'.
Proof.
  destruct fuel as [|fuel]; [discriminate|]. simpl.
  destruct (TwitterEtl.remaining_count st >? 0).
  2:{ intros H. injection H as <- <- <-. now left. }
  destruct (Tweepy.get_users_tweets _ _ _ _ _)
    as [c1 [[[[|tw page]|] next]|[| |]]]; simpl;
    try (intros H; injection H as <- <- <-; right; eauto).
  - destruct (negb _ || _);
      [intros H; injection H as <- <- <-; right; eauto|].
    destruct (TwitterEtl.fetch_loop _ _ _ _ _ _ _) as [[[c2 evs2] ex2]|];
      [|discriminate].
    simpl. intros H. injection H as <- <- <-. right; eauto.
  - destruct (sleep _ _) as [slept|] eqn:Esl;
      [|intros H; injection H as <- <- <-; right; eauto].
    apply sleep_some in Esl. destruct Esl as [-> _].
    destruct (TwitterEtl.fetch_loop _ _ _ _ _ _ _) as [[[c2 evs2] ex2]|];
      [|discriminate].
    simpl. intros H. injection H as <- <- <-. right; eauto.
Qed.

Lemma fetch_loop_well_sized api uid count max_retries initial_wait :
  forall fuel c st c' evs ex,
    P.remaining_count st <= count ->
    P.fetch_loop api fuel uid count max_retries initial_wait c st
    = Some (c', evs, ex) ->
    Forall (well_sized uid count) evs.
Proof.
  induction fuel as [|fuel IH]; intros c st c' evs ex Hle H; [discriminate|].
  simpl in H.
  destruct ((P.remaining_count st >? 0) && (P.retries st <? max_retries))
    eqn:Hc.
  2:{ injection H as <- <- <-. constructor. }
  apply andb_true_iff in Hc. destruct Hc as [Hr _]. apply Z.gtb_lt in Hr.
  assert (Hreq : well_sized uid count
                   (EGetUsersTweets uid (Z.min (P.remaining_count st) 100)
                                    (P.next_token st)))
    by (simpl; lia).
  destruct (Tweepy.get_users_tweets _ _ _ _ _)
    as [c1 [[[[|tw page]|] next]|[| |]]]; simpl in H;
    try (injection H as <- <- <-; constructor; [exact Hreq | constructor]).
  - destruct (negb _ || _);
      [injection H as <- <- <-; constructor; [exact Hreq | constructor]|].
    destruct (P.fetch_loop _ _ _ _ _ _ _ _) as [[[c2 evs2] ex2]|] eqn:E;
      [|discriminate].
    simpl in H. injection H as <- <- <-. constructor; [exact Hreq|].
    eapply IH; [|exact E]. simpl. unfold Py.len. lia.
  - destruct (sleep _ _) as [slept|] eqn:Esl;
      [|injection H as <- <- <-; constructor; [exact Hreq | constructor]].
    apply sleep_some in Esl. destruct Esl as [-> _].
    destruct (P.fetch_loop _ _ _ _ _ _ _ _) as [[[c2 evs2] ex2]|] eqn:E;
      [|discriminate].
    simpl in H. injection H as <- <- <-.
    constructor; [exact Hreq|]. constructor; [exact I|].
    eapply IH; [|exact E]. simpl. lia.
Qed.

Lemma etl_fetch_loop_well_sized api uid count wait_time :
  forall fuel c st c' evs ex,
    TwitterEtl.remaining_count st <= count ->
    TwitterEtl.fetch_loop api fuel uid count wait_time c st
    = Some (c', evs, ex) ->
    Forall (well_sized uid count) evs.
Proof.
  induction fuel as [|fuel IH]; intros c st c' evs ex Hle H; [discriminate|].
  simpl in H.
  destruct (TwitterEtl.remaining_count st >? 0) eqn:Hr.
  2:{ injection H as <- <- <-. constructor. }
  apply Z.gtb_lt in Hr.
  assert (Hreq : well_sized uid count
                   (EGetUsersTweets uid
                      (Z.min (TwitterEtl.remaining_count st) 100)
                      (TwitterEtl.next_token st)))
    by (simpl; lia).
  destruct (Tweepy.get_users_tweets _ _ _ _ _)
    as [c1 [[[[|tw page]|] next]|[| |]]]; simpl in H;
    try (injection H as <- <- <-; constructor; [exact Hreq | constructor]).
  - destruct (negb _ || _);
      [injection H as <- <- <-; constructor; [exact Hreq | constructor]|].
    destruct (TwitterEtl.fetch_loop _ _ _ _ _ _ _) as [[[c2 evs2] ex2]|] eqn:E;
      [|discriminate].
    simpl in H. injection H as <- <- <-. constructor; [exact Hreq|].
    eapply IH; [|exact E]. simpl. unfold Py.len. lia.
  - destruct (sleep _ _) as [slept|] eqn:Esl;
      [|injection H as <- <- <-; constructor; [exact Hreq | constructor]].
    apply sleep_some in Esl. destruct Esl as [-> _].
    destruct (TwitterEtl.fetch_loop _ _ _ _ _ _ _) as [[[c2 evs2] ex2]|] eqn:E;
      [|discriminate].
    simpl in H. injection H as <- <- <-.
    constructor; [exact Hreq|]. constructor; [exact I|].
    eapply IH; [|exact E]. exact Hle.
Qed.

(** X1: every page request of a fetch, in [p.py] and in [twitter_etl.py],
    is made for the user the lookup found and asks for at least one tweet,
    at most 100 and at most [count]. *)
Theorem page_requests_well_sized api c username count max_retries
    initial_wait wait_time :
  (forall id max_results token,
      In (EGetUsersTweets id max_results token)
         (snd (fst (P.get_user_tweets api c username count max_retries
                                      initial_wait))) ->
      snd (Tweepy.get_user api c username) = Tweepy.Ok (Some id)
      /\ 1 <= max_results <= 100 /\ max_results <= count)
  /\ (forall fuel c' evs tweets id max_results token,
         TwitterEtl.get_user_tweets api fuel c username count max_retries
                                    wait_time = Some (c', evs, tweets) ->
         In (EGetUsersTweets id max_results token) evs ->
         snd (Tweepy.get_user api c username) = Tweepy.Ok (Some id)
         /\ 1 <= max_results <= 100 /\ max_results <= count).
Proof.
  split.
  - intros id m t Hin.
    destruct (get_user_tweets_run api c username count max_retries
                initial_wait) as [c1 r Hu Hr | c1 uid fuel c2 evs ex Hu Hl];
      simpl in Hin.
    + destruct Hin as [Hin|[]]. discriminate.
    + destruct Hin as [Hin|Hin]; [discriminate|].
      apply fetch_loop_well_sized in Hl; [|simpl; lia].
      rewrite Forall_forall in Hl. specialize (Hl _ Hin). simpl in Hl.
      destruct Hl as [-> Hm]. rewrite Hu. auto.
  - intros fuel c' evs tweets id m t H Hin.
    unfold TwitterEtl.get_user_tweets in H.
    destruct (Tweepy.get_user api c username) as [c1 [[uid|]|e]].
    + destruct (TwitterEtl.fetch_loop _ _ _ _ _ _ _)
        as [[[c2 evs2] ex]|] eqn:El; [|discriminate].
      injection H as <- <- <-.
      destruct Hin as [Hin|Hin]; [discriminate|].
      apply etl_fetch_loop_well_sized in El; [|simpl; lia].
      rewrite Forall_forall in El. specialize (El _ Hin). simpl in El.
      destruct El as [-> Hm]. auto.
    + injection H as <- <- <-. destruct Hin as [Hin|[]]. discriminate.
    + injection H as <- <- <-. destruct Hin as [Hin|[]]. discriminate.
Qed.

(** ** Retries *)

Lemma same_after_wait_at : forall pre r w post,
  same_after_wait (pre ++ r :: ESleep w :: post) ->
  is_page_request r = true
  /\ forall r' post', post = r' :: post' -> r' = r.
Proof.
  induction pre as [|e pre IH]; intros r w post H.
  - simpl in H. destruct H as [[Hr Hpost] _]. split; [exact Hr|].
    intros r' post' ->. exact Hpost.
  - apply (IH r w post). simpl in H. exact (proj2 H).
Qed.

Lemma fetch_loop_same_after_wait api uid count max_retries initial_wait :
  forall fuel c st c' evs ex,
    P.fetch_loop api fuel uid count max_retries initial_wait c st
    = Some (c', evs, ex) ->
    same_after_wait evs.
Proof.
  induction fuel as [|fuel IH]; intros c st c' evs ex H; [discriminate|].
  simpl in H.
  destruct ((P.remaining_count st >? 0) && (P.retries st <? max_retries)).
  2:{ injection H as <- <- <-. exact I. }
  destruct (Tweepy.get_users_tweets _ _ _ _ _)
    as [c1 [[[[|tw page]|] next]|[| |]]]; simpl in H;
    try (injection H as <- <- <-; simpl; tauto).
  - destruct (negb _ || _); [injection H as <- <- <-; simpl; tauto|].
    destruct (P.fetch_loop _ _ _ _ _ _ _ _) as [[[c2 evs2] ex2]|] eqn:E;
      [|discriminate].
    simpl in H. injection H as <- <- <-.
    pose proof (IH _ _ _ _ _ E) as Hs.
    apply fetch_loop_head in E.
    destruct E as [(-> & _)|[evs' ->]]; simpl; simpl in Hs; tauto.
  - destruct (sleep _ _) as [slept|] eqn:Esl;
      [|injection H as <- <- <-; simpl; tauto].
    apply sleep_some in Esl. destruct Esl as [-> _].
    destruct (P.fetch_loop _ _ _ _ _ _ _ _) as [[[c2 evs2] ex2]|] eqn:E;
      [|discriminate].
    simpl in H. injection H as <- <- <-.
    pose proof (IH _ _ _ _ _ E) as Hs.
    apply fetch_loop_head in E. simpl in E.
    destruct E as [(-> & _)|[evs' ->]]; simpl; simpl in Hs; tauto.
Qed.

Lemma etl_fetch_loop_same_after_wait api uid count wait_time :
  forall fuel c st c' evs ex,
    TwitterEtl.fetch_loop api fuel uid count wait_time c st
    = Some (c', evs, ex) ->
    same_after_wait evs.
Proof.
  induction fuel as [|fuel IH]; intros c st c' evs ex H; [discriminate|].
  simpl in H.
  destruct (TwitterEtl.remaining_count st >? 0).
  2:{ injection H as <- <- <-. exact I. }
  destruct (Tweepy.get_users_tweets _ _ _ _ _)
    as [c1 [[[[|tw page]|] next]|[| |]]]; simpl in H;
    try (injection H as <- <- <-; simpl; tauto).
  - destruct (negb _ || _); [injection H as <- <- <-; simpl; tauto|].
    destruct (TwitterEtl.fetch_loop _ _ _ _ _ _ _) as [[[c2 evs2] ex2]|] eqn:E;
      [|discriminate].
    simpl in H. injection H as <- <- <-.
    pose proof (IH _ _ _ _ _ E) as Hs.
    apply etl_fetch_loop_head in E.
    destruct E as [(-> & _)|[evs' ->]]; simpl; simpl in Hs; tauto.
  - destruct (sleep _ _) as [slept|] eqn:Esl;
      [|injection H as <- <- <-; simpl; tauto].
    apply sleep_some in Esl. destruct Esl as [-> _].
    destruct (TwitterEtl.fetch_loop _ _ _ _ _ _ _) as [[[c2 evs2] ex2]|] eqn:E;
      [|discriminate].
    simpl in H. injection H as <- <- <-.
    pose proof (IH _ _ _ _ _ E) as Hs.
    apply etl_fetch_loop_head in E.
    destruct E as [(-> & _)|[evs' ->]]; simpl; simpl in Hs; tauto.
Qed.

(** X2: in a fetch, in [p.py] and in [twitter_etl.py], what a wait follows
    is a page request, and what follows the wait, if anything does, is the
    same request again: same user, same size, same pagination token. *)
Theorem failed_page_is_requested_again api c username count max_retries
    initial_wait wait_time :
  (forall pre r w post,
      snd (fst (P.get_user_tweets api c username count max_retries
                                  initial_wait))
      = pre ++ r :: ESleep w :: post ->
      is_page_request r = true
      /\ forall r' post', post = r' :: post' -> r' = r)
  /\ (forall fuel c' evs tweets pre r w post,
         TwitterEtl.get_user_tweets api fuel c username count max_retries
                                    wait_time = Some (c', evs, tweets) ->
         evs = pre ++ r :: ESleep w :: post ->
         is_page_request r = true
         /\ forall r' post', post = r' :: post' -> r' = r).
Proof.
  split.
  - intros pre r w post Hev. apply (same_after_wait_at pre r w post).
    rewrite <- Hev.
    destruct (get_user_tweets_run api c username count max_retries
                initial_wait) as [c1 u Hu Hr | c1 uid fuel c2 evs ex Hu Hl];
      simpl; [tauto|].
    pose proof (fetch_loop_same_after_wait _ _ _ _ _ _ _ _ _ _ _ Hl) as Hs.
    apply fetch_loop_head in Hl.
    destruct Hl as [(-> & _)|[evs' ->]]; simpl; simpl in Hs; tauto.
  - intros fuel c' evs tweets pre r w post H Hev.
    apply (same_after_wait_at pre r w post). rewrite <- Hev.
    unfold TwitterEtl.get_user_tweets in H.
    destruct (Tweepy.get_user api c username) as [c1 [[uid|]|e]];
      try (injection H as <- <- <-; simpl; tauto).
    destruct (TwitterEtl.fetch_loop _ _ _ _ _ _ _)
      as [[[c2 evs2] ex]|] eqn:El; [|discriminate].
    injection H as <- <- <-.
    pose proof (etl_fetch_loop_same_after_wait _ _ _ _ _ _ _ _ _ _ El) as Hs.
    apply etl_fetch_loop_head in El.
    destruct El as [(-> & _)|[evs' ->]]; simpl; simpl in Hs; tauto.
Qed.

Lemma failed_page_is_requested_again_witness :
  snd (fst (P.get_user_tweets Examples.scripted Examples.limited_twice
                              "NASA" 5 3 60))
  = [EGetUser "NASA"] ++ EGetUsersTweets 11 5 None :: ESleep 60
      :: [EGetUsersTweets 11 5 None; ESleep 120; EGetUsersTweets 11 5 None]
  /\ is_page_request (EGetUsersTweets 11 5 None) = true.
Proof.
  split; [reflexivity|].
  exact (proj1 (proj1 (failed_page_is_requested_again Examples.scripted
                         Examples.limited_twice "NASA" 5 3 60 900)
                      [EGetUser "NASA"] (EGetUsersTweets 11 5 None) 60
                      [EGetUsersTweets 11 5 None; ESleep 120;
                       EGetUsersTweets 11 5 None] eq_refl)).
Defined.

(** ** Bounds on what a fetch of [p.py] costs *)

Lemma fetch_loop_requests api uid count max_retries initial_wait :
  forall fuel c st c' evs ex,
    P.fetch_loop api fuel uid count max_retries initial_wait c st
    = Some (c', evs, ex) ->
    (List.length (page_requests evs) <= Nat.pred (budget max_retries st))%nat.
Proof.
  unfold budget.
  induction fuel as [|fuel IH]; intros c st c' evs ex H; [discriminate|].
  simpl in H.
  destruct ((P.remaining_count st >? 0) && (P.retries st <? max_retries))
    eqn:Hc.
  2:{ injection H as <- <- <-. simpl. lia. }
  apply andb_true_iff in Hc. destruct Hc as [Hr Ht].
  apply Z.gtb_lt in Hr. apply Z.ltb_lt in Ht.
  destruct (Tweepy.get_users_tweets _ _ _ _ _)
    as [c1 [[[[|tw page]|] next]|[| |]]]; simpl in H;
    try (injection H as <- <- <-; simpl; lia).
  - destruct (negb _ || _); [injection H as <- <- <-; simpl; lia|].
    destruct (P.fetch_loop _ _ _ _ _ _ _ _) as [[[c2 evs2] ex2]|] eqn:E;
      [|discriminate].
    simpl in H. injection H as <- <- <-.
    apply IH in E. simpl in E. unfold Py.len in E. simpl List.length in E.
    simpl. unfold page_requests in *. lia.
  - destruct (sleep _ _) as [slept|] eqn:Esl;
      [|injection H as <- <- <-; simpl; lia].
    apply sleep_some in Esl. destruct Esl as [-> _].
    destruct (P.fetch_loop _ _ _ _ _ _ _ _) as [[[c2 evs2] ex2]|] eqn:E;
      [|discriminate].
    simpl in H. injection H as <- <- <-.
    apply IH in E. simpl in E. simpl. unfold page_requests in *. lia.
Qed.

(** X3: a fetch of [p.py] makes no page request when [count] or
    [max_retries] is not positive, and at most [count + max_retries - 1]
    page requests otherwise, whatever the client answers. *)
Theorem page_requests_bounded api c username count max_retries initial_wait :
  Py.len (page_requests
            (snd (fst (P.get_user_tweets api c username count max_retries
                                         initial_wait))))
  <= Z.max 0 (Z.max 0 count + Z.max 0 max_retries - 1)
  /\ (count <= 0 \/ max_retries <= 0 ->
      page_requests
        (snd (fst (P.get_user_tweets api c username count max_retries
                                     initial_wait))) = []).
Proof.
  destruct (get_user_tweets_run api c username count max_retries initial_wait)
    as [c1 r Hu Hr | c1 uid fuel c2 evs ex Hu Hl]; simpl.
  - unfold Py.len. simpl. split; [lia | reflexivity].
  - pose proof (fetch_loop_requests _ _ _ _ _ _ _ _ _ _ _ Hl) as Hn.
    unfold budget in Hn. simpl in Hn. rewrite Z.sub_0_r in Hn.
    fold (page_requests evs). unfold Py.len. split; [lia|].
    intros Hz. destruct fuel as [|fuel]; [discriminate|]. simpl in Hl.
    destruct ((count >? 0) && (0 <? max_retries)) eqn:Hc.
    + apply andb_true_iff in Hc. destruct Hc as [H1 H2].
      apply Z.gtb_lt in H1. apply Z.ltb_lt in H2. lia.
    + now injection Hl as <- <- <-.
Qed.

Lemma total_backoff initial_wait : forall n r,
  0 <= r ->
  total (backoff initial_wait r n)
  = initial_wait * 2 ^ r * (2 ^ Z.of_nat n - 1).
Proof.
  induction n as [|n IH]; intros r Hr.
  - simpl. lia.
  - cbn [backoff total fold_right]. fold (total (backoff initial_wait (r + 1) n)).
    rewrite IH by lia.
    rewrite Nat2Z.inj_succ, Z.pow_succ_r by lia.
    rewrite Z.pow_add_r by lia. lia.
Qed.

(** X4: the time a fetch of [p.py] spends waiting is
    [initial_wait * (2^n - 1)] seconds for its [n] waits; [n] is at most
    [max_retries], so that with a wait that is not negative the time is at
    most [initial_wait * (2^max_retries - 1)]. *)
Theorem total_wait_bounded api c username count max_retries initial_wait :
  let waits :=
    sleeps (snd (fst (P.get_user_tweets api c username count max_retries
                                        initial_wait))) in
  total waits = initial_wait * (2 ^ Py.len waits - 1)
  /\ Py.len waits <= Z.max 0 max_retries
  /\ (0 <= initial_wait ->
      total waits <= initial_wait * (2 ^ Z.max 0 max_retries - 1)).
Proof.
  intros waits. subst waits.
  destruct (get_user_tweets_sleeps api c username count max_retries
              initial_wait) as (n & -> & Hn).
  unfold Py.len. rewrite backoff_length, total_backoff by lia.
  rewrite Z.pow_0_r, Z.mul_1_r.
  split; [reflexivity|]. split; [lia|].
  intros Hw. apply Z.mul_le_mono_nonneg_l; [exact Hw|].
  assert (2 ^ Z.of_nat n <= 2 ^ Z.max 0 max_retries)
    by (apply Z.pow_le_mono_r; lia).
  lia.
Qed.

(** ** Edge cases of the fetch *)

(** X5: with [max_retries] zero or negative the fetch of [p.py] looks the
    user up, requests no page and returns the empty list, whatever [count]
    is and whatever the client would answer. *)
Theorem no_retries_no_fetch api c username count max_retries initial_wait :
  max_retries <= 0 ->
  P.get_user_tweets api c username count max_retries initial_wait
  = (fst (Tweepy.get_user api c username), [EGetUser username], []).
Proof.
  intros Hm.
  unfold P.get_user_tweets, P.get_user_tweets_fuel, P.enough_fuel.
  destruct (Tweepy.get_user api c username) as [c1 [[uid|]|e]]; auto.
  simpl.
  destruct (0 <? max_retries) eqn:E; [apply Z.ltb_lt in E; lia|].
  rewrite andb_false_r. simpl.
  destruct (0 >=? max_retries) eqn:E2; [reflexivity|].
  rewrite Z.geb_leb in E2. apply Z.leb_gt in E2. lia.
Qed.

Lemma no_retries_no_fetch_witness :
  0 <= 0
  /\ P.get_user_tweets Examples.scripted [Examples.page [1; 2] None]
                       "NASA" 5 0 60
     = ([Examples.page [1; 2] None], [EGetUser "NASA"], []).
Proof.
  split; [lia|].
  exact (no_retries_no_fetch Examples.scripted [Examples.page [1; 2] None]
           "NASA" 5 0 60 ltac:(lia)).
Defined.

Lemma slice_to_nonempty {A} (l : list A) (n : Z) :
  Py.slice_to l n <> [] -> l <> [].
Proof. intros H ->. apply H, slice_to_nil. Qed.

(** X6: a fetch that returns at least one post was asked for a positive
    [count], found the user and made at least one page request; in [p.py]
    it also waited fewer than [max_retries] times. *)
Theorem nonempty_fetch api c username count max_retries initial_wait
    wait_time :
  (snd (P.get_user_tweets api c username count max_retries initial_wait)
   <> [] ->
   0 < count
   /\ (exists uid, snd (Tweepy.get_user api c username)
                   = Tweepy.Ok (Some uid))
   /\ page_requests
        (snd (fst (P.get_user_tweets api c username count max_retries
                                     initial_wait))) <> []
   /\ Py.len (sleeps (snd (fst (P.get_user_tweets api c username count
                                                  max_retries initial_wait))))
      < max_retries)
  /\ (forall fuel c' evs tweets,
         TwitterEtl.get_user_tweets api fuel c username count max_retries
                                    wait_time = Some (c', evs, tweets) ->
         tweets <> [] ->
         0 < count
         /\ (exists uid, snd (Tweepy.get_user api c username)
                         = Tweepy.Ok (Some uid))
         /\ page_requests evs <> []).
Proof.
  split.
  - destruct (get_user_tweets_run api c username count max_retries
                initial_wait) as [c1 r Hu Hr | c1 uid fuel c2 evs ex Hu Hl];
      simpl; [congruence|].
    intros Hne. destruct ex as [st| |]; simpl in Hne; try congruence.
    destruct (P.retries st >=? max_retries) eqn:Er; [congruence|].
    rewrite Z.geb_leb in Er. apply Z.leb_gt in Er.
    apply slice_to_nonempty in Hne.
    pose proof (fetch_loop_sleeps _ _ _ _ _ _ _ _ _ _ _ Hl)
      as (n & Hs & _ & Hn). simpl in Hs, Hn.
    split; [|split; [|split]].
    + destruct (Z.le_gt_cases count 0) as [Hc|Hc]; [|lia].
      apply fetch_loop_not_entered in Hl; [|exact Hc].
      injection Hl as _ _ ->. exfalso; now apply Hne.
    + rewrite Hu. simpl. eauto.
    + apply fetch_loop_head in Hl.
      destruct Hl as [(_ & Hex & _)|[evs' ->]]; [|discriminate].
      injection Hex as ->. exfalso; now apply Hne.
    + rewrite Hs. unfold Py.len. rewrite backoff_length. lia.
  - intros fuel c' evs tweets H Hne.
    unfold TwitterEtl.get_user_tweets in H.
    destruct (Tweepy.get_user api c username) as [c1 [[uid|]|e]];
      try (injection H as <- <- <-; congruence).
    destruct (TwitterEtl.fetch_loop _ _ _ _ _ _ _)
      as [[[c2 evs2] ex]|] eqn:El; [|discriminate].
    injection H as <- <- <-.
    destruct ex as [st|]; simpl in Hne; [|congruence].
    apply slice_to_nonempty in Hne.
    split; [|split].
    + destruct (Z.le_gt_cases count 0) as [Hc|Hc]; [|lia].
      apply etl_fetch_loop_not_entered in El; [|exact Hc].
      injection El as _ _ ->. exfalso; now apply Hne.
    + simpl. eauto.
    + apply etl_fetch_loop_head in El.
      destruct El as [(_ & Hex & _)|[evs' ->]]; [|discriminate].
      injection Hex as ->. exfalso; now apply Hne.
Qed.

Lemma nonempty_fetch_witness :
  snd (P.get_user_tweets Examples.scripted Examples.limited_twice
                         "NASA" 5 3 60) <> []
  /\ 0 < 5
  /\ Py.len (sleeps (snd (fst (P.get_user_tweets Examples.scripted
                                 Examples.limited_twice "NASA" 5 3 60))))
     < 3.
Proof.
  assert (H : snd (P.get_user_tweets Examples.scripted Examples.limited_twice
                                     "NASA" 5 3 60) <> [])
    by (vm_compute; discriminate).
  split; [exact H|].
  destruct (proj1 (nonempty_fetch Examples.scripted Examples.limited_twice
                     "NASA" 5 3 60 900) H) as (H1 & _ & _ & H4).
  split; [exact H1 | exact H4].
Defined.

(** X7: when the user is found and the answer to the first page request
    holds at least one tweet and either no next token or [count] tweets or
    more, the fetch makes that one request and returns the first [count]
    posts of the page, in the order of the page.  In [p.py] this needs
    [max_retries] to be positive. *)
Theorem one_page_fetch api c username count max_retries initial_wait
    wait_time fuel c1 uid c2 tw page next :
  Tweepy.get_user api c username = (c1, Tweepy.Ok (Some uid)) ->
  Tweepy.get_users_tweets api c1 uid (Z.min count 100) None
  = (c2, Tweepy.Ok (Tweepy.mkResponse (Some (tw :: page)) next)) ->
  Py.truthy next = false \/ count <= Py.len (tw :: page) ->
  0 < count ->
  (0 < max_retries ->
   P.get_user_tweets api c username count max_retries initial_wait
   = (c2, [EGetUser username; EGetUsersTweets uid (Z.min count 100) None],
      Py.slice_to (map post_of_tweet (tw :: page)) count))
  /\ TwitterEtl.get_user_tweets api (S fuel) c username count max_retries
                                wait_time
     = Some (c2, [EGetUser username;
                  EGetUsersTweets uid (Z.min count 100) None],
             Py.slice_to (map post_of_tweet (tw :: page)) count).
Proof.
  intros Hu Hp Hstop Hc.
  assert (Hb : negb (Py.truthy next)
               || (Py.len (map post_of_tweet (tw :: page)) >=? count)
               = true).
  { destruct Hstop as [->|Hlen]; [reflexivity|].
    apply orb_true_iff. right. rewrite Z.geb_leb. apply Z.leb_le.
    unfold Py.len in *. rewrite length_map. exact Hlen. }
  split.
  - intros Hm. unfold P.get_user_tweets, P.get_user_tweets_fuel, P.enough_fuel.
    rewrite Hu. cbn [P.fetch_loop P.remaining_count P.retries P.next_token
                     P.tweets].
    destruct (count >? 0) eqn:E1; [|rewrite Z.gtb_ltb in E1;
                                    apply Z.ltb_ge in E1; lia].
    destruct (0 <? max_retries) eqn:E2; [|apply Z.ltb_ge in E2; lia].
    cbn [andb]. rewrite Hp. cbn [Tweepy.data Tweepy.next_token app].
    rewrite Hb. cbn [P.after_loop P.retries P.tweets].
    destruct (0 >=? max_retries) eqn:E3; [|reflexivity].
    rewrite Z.geb_leb in E3. apply Z.leb_le in E3. lia.
  - unfold TwitterEtl.get_user_tweets. rewrite Hu.
    cbn [TwitterEtl.fetch_loop TwitterEtl.remaining_count
         TwitterEtl.next_token TwitterEtl.tweets].
    destruct (count >? 0) eqn:E1; [|rewrite Z.gtb_ltb in E1;
                                    apply Z.ltb_ge in E1; lia].
    rewrite Hp. cbn [Tweepy.data Tweepy.next_token app].
    rewrite Hb. reflexivity.
Qed.

Lemma one_page_fetch_witness :
  Py.truthy None = false
  /\ TwitterEtl.get_user_tweets Examples.scripted 1
       [Examples.page [1; 2] None] "NASA" 5 3 900
     = Some ([], [EGetUser "NASA"; EGetUsersTweets 11 5 None],
             map post_of_tweet (map Examples.tweet [1; 2])).
Proof.
  split; [reflexivity|].
  exact (proj2 (one_page_fetch Examples.scripted
                  [Examples.page [1; 2] None] "NASA" 5 3 60 900 0
                  [Examples.page [1; 2] None] 11 []
                  (Examples.tweet 1) [Examples.tweet 2] None
                  eq_refl eq_refl (or_introl eq_refl) ltac:(lia))).
Defined.

(** ** The two versions of the fetch *)

Lemma fetch_loops_agree api uid count max_retries initial_wait wait_time :
  never_limited api ->
  forall fuel c tweets token remaining retries c' evs ex,
    retries < max_retries ->
    P.fetch_loop api fuel uid count max_retries initial_wait c
                 (P.mkLoop tweets token remaining retries)
    = Some (c', evs, ex) ->
    exists ex',
      TwitterEtl.fetch_loop api fuel uid count wait_time c
                            (TwitterEtl.mkLoop tweets token remaining)
      = Some (c', evs, ex')
      /\ TwitterEtl.after_loop count ex' = P.after_loop count max_retries ex.
Proof.
  intros Hnl.
  induction fuel as [|fuel IH];
    intros c tweets token remaining retries c' evs ex Hr H; [discriminate|].
  assert (Hge : (retries >=? max_retries) = false)
    by (rewrite Z.geb_leb; apply Z.leb_gt; exact Hr).
  simpl in H. simpl.
  destruct (retries <? max_retries) eqn:Et; [|apply Z.ltb_ge in Et; lia].
  rewrite andb_true_r in H.
  destruct (remaining >? 0).
  2:{ injection H as <- <- <-. eexists. split; [reflexivity|].
      simpl. now rewrite Hge. }
  specialize (Hnl c uid (Z.min remaining 100) token).
  destruct (Tweepy.get_users_tweets _ _ _ _ _)
    as [c1 [[[[|tw page]|] next]|[| |]]]; simpl in H, Hnl |- *;
    try congruence;
    try (injection H as <- <- <-; eexists; split; [reflexivity|];
         simpl; now rewrite ?Hge).
  destruct (negb _ || _).
  - injection H as <- <- <-. eexists. split; [reflexivity|].
    simpl. now rewrite Hge.
  - destruct (P.fetch_loop _ _ _ _ _ _ _ _) as [[[c2 evs2] ex2]|] eqn:E;
      [|discriminate].
    simpl in H. injection H as <- <- <-.
    apply IH in E; [|exact Hr]. destruct E as (ex' & -> & Hex).
    simpl. eauto.
Qed.

(** X8: with a client that never answers a page request with a rate-limit
    error, and [max_retries] positive, the fetch of [twitter_etl.py]
    returns, and it returns what the fetch of [p.py] does: the same posts
    after the same calls. *)
Theorem unlimited_fetches_agree api c username count max_retries initial_wait
    wait_time fuel :
  never_limited api ->
  0 < max_retries ->
  (P.enough_fuel count max_retries <= fuel)%nat ->
  TwitterEtl.get_user_tweets api fuel c username count max_retries wait_time
  = Some (P.get_user_tweets api c username count max_retries initial_wait).
Proof.
  intros Hnl Hm Hf.
  pose proof (get_user_tweets_fuel_more api _ _ c username count max_retries
                initial_wait _ Hf
                (get_user_tweets_fuel_enough api c username count max_retries
                   initial_wait)) as HP.
  revert HP. generalize (P.get_user_tweets api c username count max_retries
                                           initial_wait).
  intros r. unfold P.get_user_tweets_fuel, TwitterEtl.get_user_tweets.
  destruct (Tweepy.get_user api c username) as [c1 [[uid|]|e]]; auto.
  destruct (P.fetch_loop _ _ _ _ _ _ _ _) as [[[c2 evs] ex]|] eqn:El;
    [|discriminate].
  intros H. injection H as <-.
  eapply fetch_loops_agree in El; [|exact Hnl|exact Hm].
  destruct El as (ex' & -> & ->). reflexivity.
Qed.

Lemma unlimited_fetches_agree_witness :
  never_limited Examples.one_page
  /\ TwitterEtl.get_user_tweets Examples.one_page 9 tt "NASA" 5 3 900
     = Some (tt, [EGetUser "NASA"; EGetUsersTweets 11 5 None],
             map post_of_tweet (map Examples.tweet [1; 2; 3])).
Proof.
  assert (H : never_limited Examples.one_page)
    by (intros c uid m t; discriminate).
  split; [exact H|].
  exact (unlimited_fetches_agree Examples.one_page tt "NASA" 5 3 60 900 9
           H ltac:(lia) (le_n 9)).
Defined.

(** ** The rows of the transformer *)

Lemma non_nans_rows {A} (key : A -> option Z) (rows : list A) :
  map snd (Pandas.non_nans key rows)
  = filter (fun r => match key r with Some _ => true | None => false end)
           rows.
Proof.
  induction rows as [|r rows IH]; [reflexivity|].
  unfold Pandas.non_nans in *. simpl.
  destruct (key r); simpl; now rewrite IH.
Qed.

(** X9: for every input, with or without timestamps that convert, the
    output of [transform_tweets] is the rows that have a timestamp, newest
    first, followed by the rows that have none, these in the order of the
    input. *)
Theorem transform_tweets_dated_then_undated parse tweets :
  exists dated,
    P.transform_tweets parse tweets
    = dated ++ filter undated (map (P.transform_row parse) tweets)
    /\ TwitterEtl.transform_tweets parse tweets
       = P.transform_tweets parse tweets
    /\ newest_first dated
    /\ Permutation dated
         (filter (fun row => negb (undated row))
                 (map (P.transform_row parse) tweets)).
Proof.
  exists (map snd (sorted_part Row.created_at
                     (map (P.transform_row parse) tweets))).
  split; [apply transform_tweets_parts|].
  split; [reflexivity|].
  split; [apply sorted_part_not_older|].
  rewrite <- sorted_part_perm, non_nans_rows.
  erewrite filter_ext; [reflexivity|].
  intros row. unfold undated. now destruct (Row.created_at row).
Qed.

(** X10: [transform_tweets] drops no row and adds none: its output is a
    rearrangement of the rows of its input, one row for each post. *)
Theorem transform_tweets_keeps_rows parse tweets :
  Permutation (map (P.transform_row parse) tweets)
              (P.transform_tweets parse tweets)
  /\ List.length (P.transform_tweets parse tweets) = List.length tweets
  /\ List.length (TwitterEtl.transform_tweets parse tweets)
     = List.length tweets.
Proof.
  pose proof (transform_tweets_perm parse tweets) as Hp.
  assert (Hl : List.length (P.transform_tweets parse tweets)
               = List.length tweets).
  { rewrite <- (Permutation_length Hp). apply length_map. }
  rewrite transform_tweets_etl_same. auto.
Qed.

(** ** The text of a row *)

Lemma replace_char_removes old new s :
  old <> new -> ~ In old (Py.replace_char old new s).
Proof.
  intros Hne Hin. unfold Py.replace_char in Hin.
  apply in_map_iff in Hin. destruct Hin as (c & Hc & _).
  destruct (N.eqb_spec c old); congruence.
Qed.

Lemma replace_char_absent old new s :
  ~ In old s -> Py.replace_char old new s = s.
Proof.
  induction s as [|c s IH]; intros Hn; [reflexivity|]. simpl.
  destruct (N.eqb_spec c old) as [->|_]; [destruct Hn; now left|].
  rewrite IH; [reflexivity|]. intros H. apply Hn. now right.
Qed.

Lemma replace_char_length old new s :
  List.length (Py.replace_char old new s) = List.length s.
Proof. apply length_map. Qed.

Lemma lstrip_split s :
  exists pre, s = pre ++ Py.lstrip s /\ forallb Py.isspace pre = true.
Proof.
  induction s as [|c s (pre & IH & Hpre)]; [now exists []|]. simpl.
  destruct (Py.isspace c) eqn:E.
  - exists (c :: pre). simpl. rewrite E, Hpre. split; [now f_equal|reflexivity].
  - now exists [].
Qed.

Lemma lstrip_head s c r : Py.lstrip s = c :: r -> Py.isspace c = false.
Proof.
  induction s as [|d s IH]; [discriminate|]. simpl.
  destruct (Py.isspace d) eqn:E; [exact IH|].
  intros H. injection H as <- _. exact E.
Qed.

Lemma lstrip_fixed s :
  (forall c r, s = c :: r -> Py.isspace c = false) -> Py.lstrip s = s.
Proof.
  destruct s as [|c s]; [reflexivity|]. intros H. simpl.
  now rewrite (H c s eq_refl).
Qed.

Lemma forallb_rev {A} (f : A -> bool) l :
  forallb f l = true -> forallb f (rev l) = true.
Proof.
  rewrite !forallb_forall. intros H x Hx. apply H, in_rev, Hx.
Qed.

Lemma rstrip_split s :
  exists suf, s = Py.rstrip s ++ suf /\ forallb Py.isspace suf = true.
Proof.
  destruct (lstrip_split (rev s)) as (pre & Hs & Hpre).
  exists (rev pre). split; [|now apply forallb_rev].
  unfold Py.rstrip. rewrite <- rev_app_distr, <- Hs. now rewrite rev_involutive.
Qed.

Lemma rstrip_last s r c : Py.rstrip s = r ++ [c] -> Py.isspace c = false.
Proof.
  unfold Py.rstrip. intros H.
  apply (f_equal (@rev N)) in H.
  rewrite rev_involutive, rev_app_distr in H. simpl in H.
  eapply lstrip_head, H.
Qed.

Lemma rstrip_fixed s :
  (forall r c, s = r ++ [c] -> Py.isspace c = false) -> Py.rstrip s = s.
Proof.
  intros H. unfold Py.rstrip. rewrite lstrip_fixed; [apply rev_involutive|].
  intros c r Hr. apply (H (rev r) c).
  rewrite <- (rev_involutive s), Hr. reflexivity.
Qed.

(** What [strip] does: it takes whitespace, and nothing else, off both
    ends, until neither end is whitespace. *)
Lemma strip_spec s :
  (exists pre suf,
      s = pre ++ Py.strip s ++ suf
      /\ forallb Py.isspace pre = true /\ forallb Py.isspace suf = true)
  /\ (forall c r, Py.strip s = c :: r -> Py.isspace c = false)
  /\ (forall r c, Py.strip s = r ++ [c] -> Py.isspace c = false).
Proof.
  unfold Py.strip.
  destruct (lstrip_split s) as (pre & Hs & Hpre).
  destruct (rstrip_split (Py.lstrip s)) as (suf & Hl & Hsuf).
  split; [|split].
  - exists pre, suf. rewrite <- Hl. auto.
  - intros c r Hr. rewrite Hr in Hl. simpl in Hl.
    eapply lstrip_head. exact Hl.
  - apply rstrip_last.
Qed.

(** X11: the text of a row holds no newline, neither begins nor ends
    with whitespace, and is the text of the post, newlines turned into
    spaces, less some whitespace at its two ends; [tweet_length] is its
    length, which is at most the length of the text of the post. *)
Theorem text_is_cleaned parse tweet :
  let text := Row.text (P.transform_row parse tweet) in
  ~ In 10%N text
  /\ (exists pre suf,
         Py.replace_char 10 32 (Post.text tweet) = pre ++ text ++ suf
         /\ forallb Py.isspace pre = true
         /\ forallb Py.isspace suf = true)
  /\ (forall c r, text = c :: r -> Py.isspace c = false)
  /\ (forall r c, text = r ++ [c] -> Py.isspace c = false)
  /\ Row.tweet_length (P.transform_row parse tweet) = Py.len text
  /\ Py.len text <= Py.len (Post.text tweet)
  /\ Row.text (TwitterEtl.transform_row parse tweet) = text.
Proof.
  simpl.
  destruct (strip_spec (Py.replace_char 10 32 (Post.text tweet)))
    as ((pre & suf & Hs & Hpre & Hsuf) & Hhead & Hlast).
  split; [|split; [|split; [|split; [|split; [|split]]]]];
    try assumption; try reflexivity.
  - intros Hin.
    apply (replace_char_removes 10 32 (Post.text tweet)); [discriminate|].
    rewrite Hs. apply in_or_app. right. apply in_or_app. now left.
  - eauto.
  - unfold Py.len. rewrite <- (replace_char_length 10 32 (Post.text tweet)).
    rewrite Hs at 2. rewrite !length_app. lia.
Qed.

(** X12: cleaning is idempotent: a post whose text is the text of a row
    gets that text again. *)
Theorem text_cleaning_idempotent parse tweet :
  let text := Row.text (P.transform_row parse tweet) in
  Row.text
    (P.transform_row parse
       (Post.mk (Post.id tweet) (Post.created_at tweet) text
                (Post.likes tweet) (Post.retweets tweet)))
  = text.
Proof.
  destruct (strip_spec (Py.replace_char 10 32 (Post.text tweet)))
    as ((pre & suf & Hs & _) & Hhead & Hlast).
  assert (Hnl : ~ In 10%N
                  (Py.strip (Py.replace_char 10 32 (Post.text tweet)))).
  { intros Hin.
    apply (replace_char_removes 10 32 (Post.text tweet)); [discriminate|].
    rewrite Hs. apply in_or_app. right. apply in_or_app. now left. }
  simpl. rewrite (replace_char_absent 10 32 _ Hnl).
  unfold Py.strip at 1.
  rewrite (lstrip_fixed _ Hhead). apply rstrip_fixed, Hlast.
Qed.

(** ** The identifier of a row *)

Lemma of_ascii_inj : forall s1 s2,
  Py.of_ascii s1 = Py.of_ascii s2 -> s1 = s2.
Proof.
  unfold Py.of_ascii.
  induction s1 as [|a s1 IH]; intros [|b s2] H; try discriminate;
    [reflexivity|].
  simpl in H. injection H as Hab H.
  f_equal; [|now apply IH].
  rewrite <- (ascii_N_embedding a), <- (ascii_N_embedding b).
  now rewrite Hab.
Qed.

Lemma to_int_printable n :
  Z.to_int n <> Decimal.Pos Decimal.Nil /\ Z.to_int n <> Decimal.Neg Decimal.Nil.
Proof.
  destruct n as [|p|p]; simpl; split; try discriminate;
    intros H; injection H as H; revert H;
    apply DecimalPos.Unsigned.to_uint_nonnil.
Qed.

Lemma str_of_int_inj n1 n2 : Py.str_of_int n1 = Py.str_of_int n2 -> n1 = n2.
Proof.
  unfold Py.str_of_int. intros H. apply of_ascii_inj in H.
  apply DecimalZ.to_int_inj.
  destruct (to_int_printable n1) as [Hp1 Hn1].
  destruct (to_int_printable n2) as [Hp2 Hn2].
  pose proof (NilZero.isi _ Hp1 Hn1) as H1.
  pose proof (NilZero.isi _ Hp2 Hn2) as H2.
  rewrite H in H1. congruence.
Qed.

(** X13: the identifier of a row determines the identifier of its post:
    two posts whose rows have the same [id] string have the same [id]. *)
Theorem row_id_determines_post_id parse tweet1 tweet2 :
  Row.id (P.transform_row parse tweet1) = Row.id (P.transform_row parse tweet2)
  -> Post.id tweet1 = Post.id tweet2.
Proof. apply str_of_int_inj. Qed.

Lemma row_id_determines_post_id_witness :
  Row.id (P.transform_row Pandas.parse_iso8601 Examples.scenario_post)
  = Row.id (P.transform_row Pandas.parse_iso8601
              (Post.mk 1 Pandas.RawNone [] None None))
  /\ Post.id Examples.scenario_post
     = Post.id (Post.mk 1 Pandas.RawNone [] None None).
Proof.
  split; [reflexivity|].
  exact (row_id_determines_post_id Pandas.parse_iso8601
           Examples.scenario_post (Post.mk 1 Pandas.RawNone [] None None)
           eq_refl).
Defined.

(** ** The steps of the job *)

Lemma load_variables_first_missing env keys :
  snd (P.load_variables env keys)
  = match first_missing env keys with
    | Some key => Failure (KeyError key)
    | None => Success
    end.
Proof.
  induction keys as [|key keys IH]; [reflexivity|].
  unfold first_missing in *. simpl.
  destruct (variable_get env key); [|reflexivity].
  destruct (P.load_variables env keys) as [evs r]. exact IH.
Qed.

(** X14: when one of the five Airflow Variables is not set, the job of
    [p.py] ends with a [KeyError] for the first of them that is missing,
    having done nothing but read Variables: no call of the client, no
    file, no upload. *)
Theorem missing_credential_fails_the_job api parse env c0 key :
  first_missing env P.credentials = Some key ->
  snd (P.run_twitter_etl api parse env c0) = Failure (KeyError key)
  /\ forallb is_variable_get (fst (P.run_twitter_etl api parse env c0)) = true
  /\ In key P.credentials.
Proof.
  intros Hk.
  pose proof (load_variables_first_missing env P.credentials) as Hl.
  pose proof (load_variables_events env P.credentials) as Hev.
  rewrite Hk in Hl. unfold P.run_twitter_etl.
  destruct (P.load_variables env P.credentials) as [evs0 r0].
  simpl in Hl, Hev. subst r0. simpl.
  split; [reflexivity|]. split; [exact Hev|].
  unfold first_missing in Hk. apply find_some in Hk. tauto.
Qed.

Lemma missing_credential_fails_the_job_witness :
  first_missing Examples.secret_missing P.credentials
  = Some "twitter_api_key_secret"%string
  /\ snd (P.run_twitter_etl Examples.one_page Pandas.parse_iso8601
                            Examples.secret_missing tt)
     = Failure (KeyError "twitter_api_key_secret").
Proof.
  split; [reflexivity|].
  exact (proj1 (missing_credential_fails_the_job Examples.one_page
                  Pandas.parse_iso8601 Examples.secret_missing tt
                  "twitter_api_key_secret" eq_refl)).
Defined.

Lemma etl_store_same : TwitterEtl.store = P.store.
Proof. reflexivity. Qed.

(** What [store] does, case by case. *)
Lemma store_cases parse env tweets :
  P.store parse env tweets
  = match tweets with
    | [] => ([], Failure NoDataError)
    | _ :: _ =>
        let df := P.transform_tweets parse tweets in
        let path := "/tmp/tweets.csv"%string in
        if negb (to_csv_ok env) then
          ([ETransform tweets; EToCsv path df], Failure ToCsvError)
        else if negb (path_exists env) then
          ([ETransform tweets; EToCsv path df; EPathExists path],
           Failure (FileNotFoundError path))
        else
          ([ETransform tweets; EToCsv path df; EPathExists path;
            EUploadFile path "airfloe-kini" "twitter_data/tweets.csv"],
           if upload_file_ok env then Success else Failure UploadError)
    end.
Proof.
  destruct tweets as [|tweet tweets]; [reflexivity|].
  unfold P.store, P.upload_to_s3.
  destruct (to_csv_ok env), (path_exists env), (upload_file_ok env);
    reflexivity.
Qed.

Lemma none_of_in p evs e : none_of p evs -> In e evs -> p e = false.
Proof.
  unfold none_of. intros Hn Hin.
  destruct (p e) eqn:E; [|reflexivity].
  assert (In e (filter p evs)) by (apply filter_In; auto).
  rewrite Hn in H. contradiction.
Qed.

(** A run of the job of [p.py] is made of events that do not touch the
    data, followed or not by the events of [store] applied to what the
    fetch returned; in the first case the job has failed. *)
Lemma run_twitter_etl_shape api parse env c0 :
  let tweets :=
    snd (P.get_user_tweets api (fst (fst (P.check_rate_limits api c0)))
                           "NASA" 5 3 60) in
  exists pre,
    none_of touches_data pre
    /\ ((fst (P.run_twitter_etl api parse env c0) = pre
         /\ snd (P.run_twitter_etl api parse env c0) <> Success)
        \/ P.run_twitter_etl api parse env c0
           = (pre ++ fst (P.store parse env tweets),
              snd (P.store parse env tweets))).
Proof.
  cbv zeta. unfold P.run_twitter_etl.
  pose proof (load_variables_events env P.credentials) as Hev.
  destruct (P.load_variables env P.credentials) as [evs0 r0]. simpl in Hev.
  assert (H0 : none_of touches_data evs0)
    by (eapply none_of_kind; [exact Hev|now intros []]).
  destruct r0 as [|err].
  2:{ exists evs0. split; [exact H0|]. left. split; [reflexivity|discriminate]. }
  destruct (P.check_rate_limits api c0) as [[c1 evs1] remaining] eqn:Ec.
  assert (H1 : evs1 = [ERateLimitStatus]).
  { unfold P.check_rate_limits in Ec.
    destruct (Tweepy.get_rate_limit_status api c0) as [c' [status|err]];
      congruence. }
  subst evs1. simpl fst.
  destruct (remaining <? 1).
  { exists (evs0 ++ [ERateLimitStatus]).
    split; [apply none_of_app; [exact H0|reflexivity]|].
    left. split; [reflexivity|discriminate]. }
  pose proof (get_user_tweets_events api c1 "NASA" 5 3 60) as Hev2.
  destruct (P.get_user_tweets api c1 "NASA" 5 3 60) as [[c2 evs2] tweets].
  simpl in Hev2 |- *.
  exists (evs0 ++ [ERateLimitStatus] ++ evs2). split.
  - apply none_of_app; [exact H0|]. apply none_of_app; [reflexivity|].
    eapply none_of_kind; [exact Hev2|now intros []].
  - right. destruct (P.store parse env tweets) as [evs3 r]. simpl.
    now rewrite <- !app_assoc.
Qed.

Lemma etl_run_twitter_etl_shape api parse env fuel c0 c1 evs1 tweets :
  TwitterEtl.get_user_tweets api fuel c0 "NASA" 5 3 900
  = Some (c1, evs1, tweets) ->
  none_of touches_data evs1
  /\ TwitterEtl.run_twitter_etl api parse env fuel c0
     = Some (evs1 ++ fst (P.store parse env tweets),
             snd (P.store parse env tweets)).
Proof.
  intros Hf. split.
  - apply etl_get_user_tweets_events in Hf.
    eapply none_of_kind; [exact Hf|now intros []].
  - unfold TwitterEtl.run_twitter_etl. rewrite Hf, etl_store_same.
    now destruct (P.store parse env tweets).
Qed.

Lemma in_data_events pre evs e :
  none_of touches_data pre -> touches_data e = true ->
  In e (pre ++ evs) -> In e evs.
Proof.
  intros Hn Ht Hin. apply in_app_or in Hin. destruct Hin as [Hin|Hin]; auto.
  apply (none_of_in _ _ _ Hn) in Hin. congruence.
Qed.

Lemma store_succeeds parse env tweets :
  snd (P.store parse env tweets) = Success
  <-> tweets <> []
      /\ to_csv_ok env = true
      /\ path_exists env = true
      /\ upload_file_ok env = true.
Proof.
  rewrite store_cases.
  destruct tweets as [|tweet tweets]; simpl.
  - split; [discriminate | intros [H _]; now destruct H].
  - destruct (to_csv_ok env), (path_exists env), (upload_file_ok env);
      simpl; intuition congruence.
Qed.

(** X15: the job of [p.py] succeeds exactly when the five Variables are
    set, the quota check reports at least one request left, the fetch
    returns at least one post, the file is written, it is found again and
    the upload goes through.  The job of [twitter_etl.py], when its fetch
    returns, succeeds exactly when the last four of these hold. *)
Theorem job_succeeds_exactly_when api parse env c0 :
  (snd (P.run_twitter_etl api parse env c0) = Success
   <-> first_missing env P.credentials = None
       /\ 1 <= snd (P.check_rate_limits api c0)
       /\ snd (P.get_user_tweets api
                  (fst (fst (P.check_rate_limits api c0))) "NASA" 5 3 60)
          <> []
       /\ to_csv_ok env = true
       /\ path_exists env = true
       /\ upload_file_ok env = true)
  /\ (forall fuel c1 evs1 tweets,
         TwitterEtl.get_user_tweets api fuel c0 "NASA" 5 3 900
         = Some (c1, evs1, tweets) ->
         exists evs r,
           TwitterEtl.run_twitter_etl api parse env fuel c0 = Some (evs, r)
           /\ (r = Success
               <-> tweets <> []
                   /\ to_csv_ok env = true
                   /\ path_exists env = true
                   /\ upload_file_ok env = true)).
Proof.
  split.
  - unfold P.run_twitter_etl.
    pose proof (load_variables_first_missing env P.credentials) as Hl.
    destruct (P.load_variables env P.credentials) as [evs0 r0].
    cbn [snd] in Hl.
    destruct (first_missing env P.credentials) as [key|]; subst r0.
    { simpl. split; [discriminate | intros [H _]; discriminate]. }
    destruct (P.check_rate_limits api c0) as [[c1 evs1] remaining].
    simpl fst. simpl snd at 2.
    destruct (remaining <? 1) eqn:E.
    { apply Z.ltb_lt in E. simpl.
      split; [discriminate | intros (_ & H & _); lia]. }
    apply Z.ltb_ge in E.
    destruct (P.get_user_tweets api c1 "NASA" 5 3 60) as [[c2 evs2] tweets].
    pose proof (store_succeeds parse env tweets) as Hstore.
    destruct (P.store parse env tweets) as [evs3 r]. simpl in Hstore |- *.
    rewrite Hstore. tauto.
  - intros fuel c1 evs1 tweets Hf.
    destruct (etl_run_twitter_etl_shape api parse env _ _ _ _ _ Hf)
      as [_ Hrun].
    do 2 eexists. split; [exact Hrun|]. apply store_succeeds.
Qed.

Lemma store_to_csv parse env tweets path df :
  Py.len tweets <= 5 ->
  In (EToCsv path df) (fst (P.store parse env tweets)) ->
  path = "/tmp/tweets.csv"%string
  /\ df = P.transform_tweets parse tweets
  /\ 1 <= Py.len df <= 5.
Proof.
  intros Hlen. rewrite store_cases.
  assert (Hdf : Py.len (P.transform_tweets parse tweets) = Py.len tweets).
  { unfold Py.len. f_equal.
    rewrite <- (Permutation_length (transform_tweets_perm parse tweets)).
    apply length_map. }
  destruct tweets as [|tweet tweets]; [intros []|].
  assert (1 <= Py.len (tweet :: tweets))
    by (unfold Py.len; simpl List.length; lia).
  cbv zeta.
  destruct (negb (to_csv_ok env)); [|destruct (negb (path_exists env))];
    cbn [fst In]; intros H';
    repeat (destruct H' as [H'|H']; try discriminate; try contradiction);
    injection H' as <- <-;
    (split; [reflexivity|]; split; [reflexivity|]);
    change (1 <= Py.len (P.transform_tweets parse (tweet :: tweets)) <= 5);
    rewrite Hdf; lia.
Qed.

(** X16: whenever the job writes the file, it writes to [/tmp/tweets.csv]
    the transformed posts of the fetch, and these are at least one row and
    at most five. *)
Theorem written_frame api parse env c0 :
  (forall path df,
      In (EToCsv path df) (fst (P.run_twitter_etl api parse env c0)) ->
      path = "/tmp/tweets.csv"%string
      /\ df = P.transform_tweets parse
                (snd (P.get_user_tweets api
                        (fst (fst (P.check_rate_limits api c0)))
                        "NASA" 5 3 60))
      /\ 1 <= Py.len df <= 5)
  /\ (forall fuel c1 evs1 tweets evs r path df,
         TwitterEtl.get_user_tweets api fuel c0 "NASA" 5 3 900
         = Some (c1, evs1, tweets) ->
         TwitterEtl.run_twitter_etl api parse env fuel c0 = Some (evs, r) ->
         In (EToCsv path df) evs ->
         path = "/tmp/tweets.csv"%string
         /\ df = TwitterEtl.transform_tweets parse tweets
         /\ 1 <= Py.len df <= 5).
Proof.
  split.
  - intros path df Hin.
    destruct (run_twitter_etl_shape api parse env c0)
      as (pre & Hpre & [[Hev _]|Hrun]).
    + rewrite Hev in Hin. apply (none_of_in _ _ _ Hpre) in Hin. discriminate.
    + rewrite Hrun in Hin. simpl in Hin.
      apply in_data_events in Hin; [|exact Hpre|reflexivity].
      apply (store_to_csv parse env); [|exact Hin].
      pose proof (get_user_tweets_length api
                    (fst (fst (P.check_rate_limits api c0))) "NASA" 5 3 60).
      lia.
  - intros fuel c1 evs1 tweets evs r path df Hf Hrun Hin.
    rewrite transform_tweets_etl_same.
    destruct (etl_run_twitter_etl_shape api parse env _ _ _ _ _ Hf)
      as [Hpre Hrun'].
    rewrite Hrun in Hrun'. injection Hrun' as -> ->.
    apply in_data_events in Hin; [|exact Hpre|reflexivity].
    apply (store_to_csv parse env); [|exact Hin].
    pose proof (etl_get_user_tweets_length _ _ _ _ _ _ _ _ Hf) as Hl.
    simpl in Hl. lia.
Qed.

Lemma store_upload parse env tweets l b k :
  In (EUploadFile l b k) (fst (P.store parse env tweets)) ->
  l = "/tmp/tweets.csv"%string
  /\ b = "airfloe-kini"%string
  /\ k = "twitter_data/tweets.csv"%string
  /\ to_csv_ok env = true /\ path_exists env = true
  /\ exists df, In (EToCsv l df) (fst (P.store parse env tweets)).
Proof.
  rewrite store_cases.
  destruct tweets as [|tweet tweets]; [intros []|]. cbv zeta.
  destruct (to_csv_ok env), (path_exists env); cbn [negb fst In];
    intros H';
    repeat (destruct H' as [H'|H']; try discriminate; try contradiction).
  injection H' as <- <- <-. repeat split; eauto.
Qed.

(** X17: whenever the job attempts an upload, it is of [/tmp/tweets.csv]
    to the key [twitter_data/tweets.csv] of the bucket [airfloe-kini], the
    file has been written in the same run and found; so nothing is
    uploaded when the file is missing or when writing it failed. *)
Theorem upload_only_after_write api parse env c0 :
  (forall local_file bucket_name s3_file,
      In (EUploadFile local_file bucket_name s3_file)
         (fst (P.run_twitter_etl api parse env c0)) ->
      local_file = "/tmp/tweets.csv"%string
      /\ bucket_name = "airfloe-kini"%string
      /\ s3_file = "twitter_data/tweets.csv"%string
      /\ to_csv_ok env = true /\ path_exists env = true
      /\ (exists df,
             In (EToCsv local_file df)
                (fst (P.run_twitter_etl api parse env c0))))
  /\ (forall fuel evs r local_file bucket_name s3_file,
         TwitterEtl.run_twitter_etl api parse env fuel c0 = Some (evs, r) ->
         In (EUploadFile local_file bucket_name s3_file) evs ->
         local_file = "/tmp/tweets.csv"%string
         /\ bucket_name = "airfloe-kini"%string
         /\ s3_file = "twitter_data/tweets.csv"%string
         /\ to_csv_ok env = true /\ path_exists env = true
         /\ (exists df, In (EToCsv local_file df) evs)).
Proof.
  split.
  - intros l b k Hin.
    destruct (run_twitter_etl_shape api parse env c0)
      as (pre & Hpre & [[Hev _]|Hrun]).
    + rewrite Hev in Hin. apply (none_of_in _ _ _ Hpre) in Hin. discriminate.
    + rewrite Hrun in Hin |- *. simpl in Hin |- *.
      apply in_data_events in Hin; [|exact Hpre|reflexivity].
      destruct (store_upload _ _ _ _ _ _ Hin)
        as (-> & -> & -> & Hc & Hp & df & Hdf).
      repeat split; auto. exists df. apply in_or_app. now right.
  - intros fuel evs r l b k Hrun Hin.
    unfold TwitterEtl.run_twitter_etl in Hrun.
    destruct (TwitterEtl.get_user_tweets api fuel c0 "NASA" 5 3 900)
      as [[[c1 evs1] tweets]|] eqn:Hf; [|discriminate].
    destruct (etl_run_twitter_etl_shape api parse env _ _ _ _ _ Hf)
      as [Hpre Hrun'].
    rewrite etl_store_same in Hrun.
    destruct (P.store parse env tweets) as [evs2 r2] eqn:Es.
    injection Hrun as <- <-.
    apply in_data_events in Hin; [|exact Hpre|reflexivity].
    pose proof (store_upload parse env tweets l b k) as Hs.
    rewrite Es in Hs. simpl in Hs.
    destruct (Hs Hin) as (-> & -> & -> & Hc & Hp & df & Hdf).
    repeat split; auto. exists df. apply in_or_app. now right.
Qed.

(** ** A client that is rate limited throughout *)



